(** * Stellar transaction signing (firmware/stellar.c): a shallow embedding

    The C functions of [firmware/stellar.c] are rendered as Rocq functions
    over [Z] (machine integers, wrap-around written out) and [list Z]
    (byte buffers).  The two file-level statics [stellar_signing] and
    [stellar_activeTx] become fields of an explicit [World] that is passed
    through every call, together with the messages sent to the host and the
    confirmations requested from the user.

    Part I holds the embedding, Part II the properties of the signing
    protocol, Part III further properties of the encoders, of the address
    format and of whole runs. *)

From Stdlib Require Import ZArith List String Ascii Bool Lia Btauto.
From coqutil Require Import Z.bitblast.
Import ListNotations.

Local Open Scope Z_scope.

(** * Part I: the embedding *)

(** ** Machine integers and byte buffers *)

Module C.

Definition uint8 (v : Z) : Z := Z.land v 0xFF.
Definition uint16 (v : Z) : Z := Z.land v 0xFFFF.
Definition uint32 (v : Z) : Z := Z.land v 0xFFFFFFFF.
Definition uint64 (v : Z) : Z := Z.land v 0xFFFFFFFFFFFFFFFF.

Definition is_uint8 (v : Z) : bool := (0 <=? v) && (v <? 256).

(** A buffer whose cells all hold a byte. *)
Definition is_bytes (l : list Z) : bool := forallb is_uint8 l.

(** Character codes of a string literal, without the terminating NUL. *)
Definition chars (s : string) : list Z :=
  map (fun c => Z.of_N (N_of_ascii c)) (list_ascii_of_string s).

(** [strnlen s maxlen]: number of characters before the first NUL, capped
    at [maxlen]. *)
Fixpoint strnlen (s : list Z) (maxlen : nat) : nat :=
  match maxlen, s with
  | S n, c :: s' => if c =? 0 then O else S (strnlen s' n)
  | _, _ => O
  end.

(** [strncmp s1 s2 n]: difference of the first pair of characters that
    differ within the first [n], the end of a buffer reading as NUL. *)
Fixpoint strncmp (s1 s2 : list Z) (n : nat) : Z :=
  match n with
  | O => 0
  | S n' =>
      let c1 := hd 0 s1 in
      let c2 := hd 0 s2 in
      if negb (c1 =? c2) then c1 - c2
      else if c1 =? 0 then 0
      else strncmp (tl s1) (tl s2) n'
  end.

(** [memcpy (dst + off) src n] on a buffer held as a list. *)
Definition memcpy (dst : list Z) (off : nat) (src : list Z) (n : nat) : list Z :=
  firstn off dst ++ firstn n src ++ skipn (off + n) dst.

(** [a[i] = v]. *)
Definition store (a : list Z) (i : nat) (v : Z) : list Z :=
  firstn i a ++ v :: skipn (S i) a.

End C.

Inductive byte_order : Set := LITTLE_ENDIAN | BIG_ENDIAN.

(** Modelled from the spec: the macro [BYTE_ORDER] comes from a header that
    is not part of the file; the spec has integers hashed big-endian
    whatever the host, and the firmware runs on a little-endian core, where
    the [#if] of the two integer primitives selects the byte reversal. *)
Definition BYTE_ORDER : byte_order := LITTLE_ENDIAN.

Definition byte_order_eqb (a b : byte_order) : bool :=
  match a, b with
  | LITTLE_ENDIAN, LITTLE_ENDIAN | BIG_ENDIAN, BIG_ENDIAN => true
  | _, _ => false
  end.

(** Modelled from the spec: the macro [REVERSE32] comes from a header that is
    not part of the file; it reverses the four bytes of a 32-bit word: the
    halves are exchanged, then the bytes within each half. *)
Definition REVERSE32 (w : Z) : Z :=
  let tmp := C.uint32 w in
  let tmp := C.uint32 (Z.lor (Z.shiftr tmp 16) (Z.shiftl tmp 16)) in
  C.uint32 (Z.lor (Z.shiftr (Z.land tmp 0xff00ff00) 8)
                  (Z.shiftl (Z.land tmp 0x00ff00ff) 8)).

(** Modelled from the spec: the macro [REVERSE64] comes from a header that is
    not part of the file; it reverses the eight bytes of a 64-bit word:
    the halves are exchanged, then the bytes within each pair, then the
    pairs within each half. *)
Definition REVERSE64 (w : Z) : Z :=
  let tmp := C.uint64 w in
  let tmp := C.uint64 (Z.lor (Z.shiftr tmp 32) (Z.shiftl tmp 32)) in
  let tmp := C.uint64 (Z.lor (Z.shiftr (Z.land tmp 0xff00ff00ff00ff00) 8)
                             (Z.shiftl (Z.land tmp 0x00ff00ff00ff00ff) 8)) in
  C.uint64 (Z.lor (Z.shiftr (Z.land tmp 0xffff0000ffff0000) 16)
                  (Z.shiftl (Z.land tmp 0x0000ffff0000ffff) 16)).

(** ** CRC16 and the address codec *)

(** One turn of the inner loop of [stellar_crc16]. *)
Definition crc16_bit (polynomial byte crc bitidx : Z) : Z :=
  let bit := Z.land (Z.shiftr byte (7 - bitidx)) 1 =? 1 in
  let c15 := Z.land (Z.shiftr crc 15) 1 =? 1 in
  let crc := C.uint16 (Z.shiftl crc 1) in
  if xorb c15 bit then C.uint16 (Z.lxor crc polynomial) else crc.

Definition stellar_crc16 (bytes : list Z) (length : nat) : Z :=
  let crc := 0x0000 in
  let polynomial := 0x1021 in
  let crc :=
    fold_left
      (fun crc i =>
         let byte := nth i bytes 0 in
         fold_left (crc16_bit polynomial byte) (map Z.of_nat (seq 0 8)) crc)
      (seq 0 length) crc in
  Z.land crc 0xffff.

(** Modelled from the spec: the constant [BASE32_ALPHABET_RFC4648] is not
    part of the file; it is the alphabet of RFC 4648. *)
Definition BASE32_ALPHABET_RFC4648 : string := "ABCDEFGHIJKLMNOPQRSTUVWXYZ234567".

(** The bytes of [data] read as one number, most significant byte first. *)
Definition be_value (data : list Z) : Z :=
  fold_left (fun acc b => acc * 256 + b) data 0.

(** Number of characters of the unpadded base32 text of [inlen] bytes. *)
Definition base32_encoded_length (inlen : nat) : nat :=
  (inlen / 5) * 8 + ((inlen mod 5) * 8 + 4) / 5.

(** Modelled from the spec: [base32_encode] is not part of the file; the
    spec names it as a base32 encoder, RFC 4648, unpadded.  The input is
    read as one bit string, most significant bit first, zero bits are added
    on the right up to a multiple of five, and each group of five bits
    selects a character of the alphabet; no padding character is added. *)
Definition base32_encode (data : list Z) (alphabet : string) : string :=
  let nchars := base32_encoded_length (List.length data) in
  let pad := 5 * Z.of_nat nchars - 8 * Z.of_nat (List.length data) in
  let v := Z.shiftl (be_value data) pad in
  string_of_list_ascii
    (map (fun k =>
            let group := Z.land (Z.shiftr v (5 * Z.of_nat (nchars - 1 - k))) 31 in
            match String.get (Z.to_nat group) alphabet with
            | Some c => c
            | None => "="%char
            end)
         (seq 0 nchars)).

(** Returns the text left in [out] and the returned length.  Every caller
    passes a buffer of 57 characters. *)
Definition stellar_publicAddressAsStr (bytes : list Z) : string * Z :=
  let keylen := (1 + 32 + 2)%nat in
  let bytes_full := repeat 0 keylen in
  let bytes_full := C.store bytes_full 0 (C.uint8 (Z.shiftl 6 3)) in
  let bytes_full := C.memcpy bytes_full 1 bytes 32 in
  let checksum := stellar_crc16 bytes_full 33 in
  let bytes_full := C.store bytes_full (keylen - 2) (Z.land checksum 0x00ff) in
  let bytes_full :=
    C.store bytes_full (keylen - 1) (Z.land (Z.shiftr checksum 8) 0x00ff) in
  (base32_encode bytes_full BASE32_ALPHABET_RFC4648, 56).

(** [strlcpy (rows[k], str_fulladdr + off, n + 1)] keeps [n] characters. *)
Definition stellar_lineBreakAddress (addrbytes : list Z) : list string :=
  let str_fulladdr := fst (stellar_publicAddressAsStr addrbytes) in
  [ substring 0 16 str_fulladdr;
    substring 16 20 str_fulladdr;
    substring (16 + 20) 20 str_fulladdr ].

(** ** Messages *)

Record pb_bytes : Type := { size : nat; bytes : list Z }.

Module StellarSignTx.
Record t : Type := {
  network_passphrase : list Z;
  index : Z;
  fee : Z;
  sequence_number : Z;
  timebounds_start : Z;
  timebounds_end : Z;
  memo_type : Z;
  memo_text : list Z;
  memo_id : Z;
  memo_hash : pb_bytes;
  num_operations : Z
}.
End StellarSignTx.

Module StellarAssetType.
Record t : Type := { type : Z; code : list Z; issuer : pb_bytes }.
End StellarAssetType.

Module StellarTxOpAck.
Record t : Type := {
  source_account : pb_bytes;
  type : Z;
  destination_account : pb_bytes;
  amount : Z;
  asset : StellarAssetType.t
}.
End StellarTxOpAck.

(** ** The signing session and its surroundings *)

(** Modelled from the spec: [StellarTransaction] is declared in a header
    that is not part of the file; the spec gives the operation count, the
    confirmed count and the account index as unsigned 32-bit fields and the
    signer's key as 32 bytes.  The hash context is held as the bytes it has
    absorbed since [sha256_Init]. *)
Record StellarTransaction : Type := {
  sha256_ctx : list Z;
  num_operations : Z;
  confirmed_operations : Z;
  account_id : list Z;
  account_index : Z;
  network_type : Z;
  memo_type : Z;
  xdr_offset : Z
}.

Inductive FailureType : Set :=
| FailureType_Failure_UnexpectedMessage
| FailureType_Failure_ActionCancelled.

(** What a call of [stellar_layoutTransactionDialog] asks the user to
    approve; the drawing of the lines is left out. *)
Inductive Prompt : Type :=
| OpSourceAccount (rows : list string)
| CreateAccount (rows : list string) (amount : Z)
| Payment (rows : list string) (asset : StellarAssetType.t) (amount : Z).

Inductive Event : Type :=
| SendFailure (code : FailureType) (text : option string)
| LayoutHome
| Dialog (p : Prompt)
| ButtonRequest (answer : bool).

(** [buttons] holds the answers the user is going to give, in order. *)
Record World : Type := {
  stellar_signing : bool;
  stellar_activeTx : StellarTransaction;
  trace : list Event;
  buttons : nat -> bool
}.

(** Result of a function that reads through a pointer it did not check. *)
Inductive outcome (A : Type) : Type :=
| Done (a : A)
| Undefined.

Arguments Done {A} a.
Arguments Undefined {A}.

Definition bind {A B : Type} (m : outcome A) (k : A -> outcome B) : outcome B :=
  match m with
  | Done a => k a
  | Undefined => Undefined
  end.

Notation "x <- m ;; k" := (bind m (fun x => k))
  (at level 61, m at next level, right associativity).

(** The primitives the file calls and does not define: SHA-256, Ed25519
    signing, the root-key store and the BIP32 derivation.  [sha256_Raw] is
    the digest of a byte string; the streaming calls [sha256_Init],
    [sha256_Update] and [sha256_Final] are held to it: the context is the
    byte string absorbed so far and [sha256_Final] yields its digest.
    [sha256_Final] receives the context by pointer and may write to it:
    [sha256_finalized] stands for what it leaves there, given what the
    context had absorbed, and nothing is assumed of it.  The root-key store
    is taken by its result alone: [trace] and [buttons] record what the
    functions of this file send, show and ask, not what the store does on
    the way.  Of a node only the two key fields are read. *)
Class Primitives : Type := {
  HDNode : Type;
  private_key : HDNode -> list Z;
  public_key : HDNode -> list Z;
  sha256_Raw : list Z -> list Z;
  sha256_finalized : list Z -> list Z;
  ed25519_sign : list Z -> list Z -> list Z -> list Z;
  storage_getRootNode : string -> bool -> option HDNode;
  hdnode_private_ckd_cached : HDNode -> list Z -> option HDNode;
  hdnode_fill_public_key : HDNode -> HDNode
}.

Definition with_tx (f : StellarTransaction -> StellarTransaction) (w : World) : World :=
  {| stellar_signing := stellar_signing w;
     stellar_activeTx := f (stellar_activeTx w);
     trace := trace w;
     buttons := buttons w |}.

Definition set_signing (b : bool) (w : World) : World :=
  {| stellar_signing := b;
     stellar_activeTx := stellar_activeTx w;
     trace := trace w;
     buttons := buttons w |}.

Definition emit (e : Event) (w : World) : World :=
  {| stellar_signing := stellar_signing w;
     stellar_activeTx := stellar_activeTx w;
     trace := trace w ++ [e];
     buttons := buttons w |}.

Definition fsm_sendFailure (code : FailureType) (text : option string) : World -> World :=
  emit (SendFailure code text).

Definition layoutHome : World -> World := emit LayoutHome.

Definition stellar_layoutTransactionDialog (p : Prompt) : World -> World :=
  emit (Dialog p).

Definition protectButton (w : World) : bool * World :=
  let answer := buttons w 0%nat in
  (answer,
   {| stellar_signing := stellar_signing w;
      stellar_activeTx := stellar_activeTx w;
      trace := trace w ++ [ButtonRequest answer];
      buttons := fun n => buttons w (S n) |}).

(** [memset (&stellar_activeTx, 0, sizeof (StellarTransaction))]. *)
Definition zero_tx : StellarTransaction :=
  {| sha256_ctx := [];
     num_operations := 0;
     confirmed_operations := 0;
     account_id := repeat 0 32;
     account_index := 0;
     network_type := 0;
     memo_type := 0;
     xdr_offset := 0 |}.

Definition sha256_Init (tx : StellarTransaction) : StellarTransaction :=
  {| sha256_ctx := [];
     num_operations := num_operations tx;
     confirmed_operations := confirmed_operations tx;
     account_id := account_id tx;
     account_index := account_index tx;
     network_type := network_type tx;
     memo_type := memo_type tx;
     xdr_offset := xdr_offset tx |}.

Definition sha256_Update (data : list Z) (len : nat) (tx : StellarTransaction)
  : StellarTransaction :=
  {| sha256_ctx := sha256_ctx tx ++ firstn len data;
     num_operations := num_operations tx;
     confirmed_operations := confirmed_operations tx;
     account_id := account_id tx;
     account_index := account_index tx;
     network_type := network_type tx;
     memo_type := memo_type tx;
     xdr_offset := xdr_offset tx |}.

Definition set_sha256_ctx (c : list Z) (tx : StellarTransaction) : StellarTransaction :=
  {| sha256_ctx := c;
     num_operations := num_operations tx;
     confirmed_operations := confirmed_operations tx;
     account_id := account_id tx;
     account_index := account_index tx;
     network_type := network_type tx;
     memo_type := memo_type tx;
     xdr_offset := xdr_offset tx |}.

Definition set_num_operations (v : Z) (tx : StellarTransaction) : StellarTransaction :=
  {| sha256_ctx := sha256_ctx tx;
     num_operations := C.uint32 v;
     confirmed_operations := confirmed_operations tx;
     account_id := account_id tx;
     account_index := account_index tx;
     network_type := network_type tx;
     memo_type := memo_type tx;
     xdr_offset := xdr_offset tx |}.

Definition set_confirmed_operations (v : Z) (tx : StellarTransaction)
  : StellarTransaction :=
  {| sha256_ctx := sha256_ctx tx;
     num_operations := num_operations tx;
     confirmed_operations := C.uint32 v;
     account_id := account_id tx;
     account_index := account_index tx;
     network_type := network_type tx;
     memo_type := memo_type tx;
     xdr_offset := xdr_offset tx |}.

Definition set_account (id : list Z) (idx : Z) (tx : StellarTransaction)
  : StellarTransaction :=
  {| sha256_ctx := sha256_ctx tx;
     num_operations := num_operations tx;
     confirmed_operations := confirmed_operations tx;
     account_id := id;
     account_index := C.uint32 idx;
     network_type := network_type tx;
     memo_type := memo_type tx;
     xdr_offset := xdr_offset tx |}.

Definition set_network_type (v : Z) (tx : StellarTransaction) : StellarTransaction :=
  {| sha256_ctx := sha256_ctx tx;
     num_operations := num_operations tx;
     confirmed_operations := confirmed_operations tx;
     account_id := account_id tx;
     account_index := account_index tx;
     network_type := v;
     memo_type := memo_type tx;
     xdr_offset := xdr_offset tx |}.

(** ** Hash builder *)

Definition stellar_hashupdate_bytes (data : list Z) (len : nat) : World -> World :=
  with_tx (sha256_Update data len).

Definition stellar_hashupdate_uint32 (value : Z) : World -> World :=
  let value := C.uint32 value in
  let value := if byte_order_eqb BYTE_ORDER LITTLE_ENDIAN
               then REVERSE32 value else value in
  let data := repeat 0 4 in
  let data := C.store data 3 (Z.land (Z.shiftr value 24) 0xFF) in
  let data := C.store data 2 (Z.land (Z.shiftr value 16) 0xFF) in
  let data := C.store data 1 (Z.land (Z.shiftr value 8) 0xFF) in
  let data := C.store data 0 (Z.land value 0xFF) in
  stellar_hashupdate_bytes data 4.

Definition stellar_hashupdate_uint64 (value : Z) : World -> World :=
  let value := C.uint64 value in
  let value := if byte_order_eqb BYTE_ORDER LITTLE_ENDIAN
               then REVERSE64 value else value in
  let data := repeat 0 8 in
  let data := C.store data 7 (Z.land (Z.shiftr value 56) 0xFF) in
  let data := C.store data 6 (Z.land (Z.shiftr value 48) 0xFF) in
  let data := C.store data 5 (Z.land (Z.shiftr value 40) 0xFF) in
  let data := C.store data 4 (Z.land (Z.shiftr value 32) 0xFF) in
  let data := C.store data 3 (Z.land (Z.shiftr value 24) 0xFF) in
  let data := C.store data 2 (Z.land (Z.shiftr value 16) 0xFF) in
  let data := C.store data 1 (Z.land (Z.shiftr value 8) 0xFF) in
  let data := C.store data 0 (Z.land value 0xFF) in
  stellar_hashupdate_bytes data 8.

Definition stellar_hashupdate_bool (value : bool) : World -> World :=
  if value then stellar_hashupdate_uint32 1 else stellar_hashupdate_uint32 0.

Definition stellar_hashupdate_string (data : list Z) (len : nat) (w : World) : World :=
  let w := stellar_hashupdate_uint32 (Z.of_nat len) w in
  stellar_hashupdate_bytes data len w.

Definition stellar_hashupdate_address (address_bytes : list Z) (w : World) : World :=
  let w := stellar_hashupdate_uint32 0 w in
  stellar_hashupdate_bytes address_bytes 32 w.

(** ** Key derivation *)

Section Firmware.

Context {P : Primitives}.

(** [sha256_Final (&ctx, digest)]: the digest of the bytes absorbed, and the
    context as the call leaves it. *)
Definition sha256_Final (tx : StellarTransaction) : list Z * StellarTransaction :=
  (sha256_Raw (sha256_ctx tx),
   set_sha256_ctx (sha256_finalized (sha256_ctx tx)) tx).

(** [None] is the null pointer the function returns on failure. *)
Definition stellar_deriveNode (index : Z) : option HDNode :=
  let curve := "ed25519"%string in
  let address_n :=
    [ Z.lor 0x80000000 44; Z.lor 0x80000000 148; Z.lor 0x80000000 (C.uint32 index) ] in
  match storage_getRootNode curve true with
  | None => None
  | Some node =>
      match hdnode_private_ckd_cached node address_n with
      | None => None
      | Some node => Some (hdnode_fill_public_key node)
      end
  end.

(** The content of [out] after the call.  The pointer that
    [stellar_deriveNode] returns is read without a test. *)
Definition stellar_getPubkeyAtIndex (index : Z) (out : list Z) (outlen : nat)
  : outcome (list Z) :=
  if (outlen <? 32)%nat then Done out
  else
    match stellar_deriveNode index with
    | None => Undefined
    | Some node => Done (C.memcpy out 0 (tl (public_key node)) outlen)
    end.

(** ** The confirmation state machine *)

Definition stellar_signingAbort (w : World) : World :=
  let w := set_signing false w in
  let w := fsm_sendFailure FailureType_Failure_ActionCancelled None w in
  layoutHome w.

Definition stellar_getXdrOffset (w : World) : Z :=
  xdr_offset (stellar_activeTx w).

Definition stellar_allOperationsConfirmed (w : World) : bool :=
  confirmed_operations (stellar_activeTx w) =? num_operations (stellar_activeTx w).

Definition stellar_getActiveTx (w : World) : StellarTransaction :=
  stellar_activeTx w.

Definition stellar_signingInit (msg : StellarSignTx.t) (w : World) : outcome World :=
  let w := with_tx (fun _ => zero_tx) w in
  let w := set_signing true w in
  let w := with_tx sha256_Init w in
  let network_hash :=
    sha256_Raw
      (firstn (C.strnlen (StellarSignTx.network_passphrase msg) 1024)
              (StellarSignTx.network_passphrase msg)) in
  let tx_type_bytes := [0x00; 0x00; 0x00; 0x02] in
  let w := with_tx (set_num_operations (StellarSignTx.num_operations msg)) w in
  let w := stellar_hashupdate_bytes network_hash 32 w in
  let w := stellar_hashupdate_bytes tx_type_bytes 4 w in
  bytes_pubkey <- stellar_getPubkeyAtIndex (StellarSignTx.index msg) (repeat 0 32) 32 ;;
  let w := with_tx (set_account bytes_pubkey (StellarSignTx.index msg)) w in
  let w := stellar_hashupdate_address bytes_pubkey w in
  let w := stellar_hashupdate_uint32 (StellarSignTx.fee msg) w in
  let w := stellar_hashupdate_uint64 (StellarSignTx.sequence_number msg) w in
  let has_timebounds :=
    (StellarSignTx.timebounds_start msg >? 0)
    || (StellarSignTx.timebounds_end msg >? 0) in
  let w :=
    if has_timebounds then
      let w := stellar_hashupdate_bool true w in
      let w := stellar_hashupdate_uint32 0 w in
      let w := stellar_hashupdate_uint32 (StellarSignTx.timebounds_start msg) w in
      let w := stellar_hashupdate_uint32 0 w in
      stellar_hashupdate_uint32 (StellarSignTx.timebounds_end msg) w
    else stellar_hashupdate_bool false w in
  let w := stellar_hashupdate_uint32 (StellarSignTx.memo_type msg) w in
  let w :=
    match StellarSignTx.memo_type msg with
    | 0 => w
    | 1 =>
        stellar_hashupdate_string (StellarSignTx.memo_text msg)
          (C.strnlen (StellarSignTx.memo_text msg) 28) w
    | 2 => stellar_hashupdate_uint64 (StellarSignTx.memo_id msg) w
    | 3 | 4 =>
        stellar_hashupdate_bytes (bytes (StellarSignTx.memo_hash msg))
          (size (StellarSignTx.memo_hash msg)) w
    | _ => w
    end in
  let w := stellar_hashupdate_uint32 (StellarSignTx.num_operations msg) w in
  let w :=
    if C.strncmp (C.chars "Public Global Stellar Network ; September 2015")
         (StellarSignTx.network_passphrase msg) 1024 =? 0
    then with_tx (set_network_type 1) w
    else if C.strncmp (C.chars "Test SDF Network ; September 2015")
              (StellarSignTx.network_passphrase msg) 1024 =? 0
    then with_tx (set_network_type 2) w
    else with_tx (set_network_type 3) w in
  Done w.

Definition stellar_confirmCreateAccountOp (msg : StellarTxOpAck.t) (w : World) : World :=
  let str_addr_rows :=
    stellar_lineBreakAddress (bytes (StellarTxOpAck.destination_account msg)) in
  let w := stellar_hashupdate_address (bytes (StellarTxOpAck.destination_account msg)) w in
  let w := stellar_hashupdate_uint64 (StellarTxOpAck.amount msg) w in
  let w :=
    stellar_layoutTransactionDialog
      (CreateAccount str_addr_rows (StellarTxOpAck.amount msg)) w in
  let (ok, w) := protectButton w in
  if negb ok then stellar_signingAbort w
  else
    with_tx (fun tx => set_confirmed_operations (confirmed_operations tx + 1) tx) w.

Definition stellar_confirmPaymentOp (msg : StellarTxOpAck.t) (w : World) : World :=
  let asset := StellarTxOpAck.asset msg in
  let str_addr_rows :=
    stellar_lineBreakAddress (bytes (StellarTxOpAck.destination_account msg)) in
  let w := stellar_hashupdate_address (bytes (StellarTxOpAck.destination_account msg)) w in
  let w :=
    if StellarAssetType.type asset =? 0
    then stellar_hashupdate_uint32 (StellarAssetType.type asset) w
    else w in
  let w :=
    if StellarAssetType.type asset =? 1
    then stellar_hashupdate_bytes (StellarAssetType.code asset) 4 w
    else w in
  let w :=
    if StellarAssetType.type asset =? 2
    then stellar_hashupdate_bytes (StellarAssetType.code asset) 12 w
    else w in
  let w :=
    if (StellarAssetType.type asset =? 1) || (StellarAssetType.type asset =? 2)
    then stellar_hashupdate_bytes (bytes (StellarAssetType.issuer asset))
           (size (StellarAssetType.issuer asset)) w
    else w in
  let w := stellar_hashupdate_uint64 (StellarTxOpAck.amount msg) w in
  let w :=
    stellar_layoutTransactionDialog
      (Payment str_addr_rows asset (StellarTxOpAck.amount msg)) w in
  let (ok, w) := protectButton w in
  if negb ok then stellar_signingAbort w
  else
    with_tx (fun tx => set_confirmed_operations (confirmed_operations tx + 1) tx) w.

(** The statements of [stellar_addOperation] after the source account. *)
Definition stellar_addOperation_body (msg : StellarTxOpAck.t) (w : World) : World :=
  let w := stellar_hashupdate_uint32 (StellarTxOpAck.type msg) w in
  let w :=
    if StellarTxOpAck.type msg =? 0 then stellar_confirmCreateAccountOp msg w else w in
  let w :=
    if StellarTxOpAck.type msg =? 1 then stellar_confirmPaymentOp msg w else w in
  if stellar_allOperationsConfirmed w then stellar_hashupdate_uint32 0 w else w.

Definition stellar_addOperation (msg : StellarTxOpAck.t) (w : World) : World :=
  if negb (stellar_signing w) then
    let w :=
      fsm_sendFailure FailureType_Failure_UnexpectedMessage
        (Some "Not in Stellar signing mode"%string) w in
    layoutHome w
  else if (0 <? size (StellarTxOpAck.source_account msg))%nat then
    let str_addr_rows :=
      stellar_lineBreakAddress (bytes (StellarTxOpAck.source_account msg)) in
    let w := stellar_layoutTransactionDialog (OpSourceAccount str_addr_rows) w in
    let (ok, w) := protectButton w in
    if negb ok then stellar_signingAbort w
    else
      let w :=
        stellar_hashupdate_address (bytes (StellarTxOpAck.source_account msg)) w in
      stellar_addOperation_body msg w
  else
    let w := stellar_hashupdate_bool false w in
    stellar_addOperation_body msg w.

(** The 64 bytes copied to [out_signature], and the world after the call.
    [to_sign] has 32 cells and [signature] 64.  [sha256_Final] is handed
    the context of the active transaction and is called before the node is
    read.  The pointer that [stellar_deriveNode] returns is read without a
    test. *)
Definition stellar_getSignatureForActiveTx (w : World) : outcome (list Z * World) :=
  let node := stellar_deriveNode (account_index (stellar_activeTx w)) in
  let (digest, tx) := sha256_Final (stellar_activeTx w) in
  let to_sign := firstn 32 digest in
  let w := with_tx (fun _ => tx) w in
  match node with
  | None => Undefined
  | Some node =>
      let signature :=
        ed25519_sign to_sign (private_key node) (tl (public_key node)) in
      Done (firstn 64 signature, w)
  end.

End Firmware.

(** ** Vocabulary of the properties *)

(** The session proper: the two statics of the file. *)
Definition session (w : World) : bool * StellarTransaction :=
  (stellar_signing w, stellar_activeTx w).

Definition ctx (w : World) : list Z := sha256_ctx (stellar_activeTx w).

Definition confirmed (w : World) : Z := confirmed_operations (stellar_activeTx w).

Definition operations (w : World) : Z := num_operations (stellar_activeTx w).

Definition append_ctx (bs : list Z) (tx : StellarTransaction) : StellarTransaction :=
  {| sha256_ctx := sha256_ctx tx ++ bs;
     num_operations := num_operations tx;
     confirmed_operations := confirmed_operations tx;
     account_id := account_id tx;
     account_index := account_index tx;
     network_type := network_type tx;
     memo_type := memo_type tx;
     xdr_offset := xdr_offset tx |}.

(** The world after the accumulator has absorbed [bs]. *)
Definition absorb (bs : list Z) : World -> World := with_tx (append_ctx bs).

(** Big-endian bytes of a 32-bit and of a 64-bit value. *)
Definition be32 (v : Z) : list Z :=
  [Z.land (Z.shiftr v 24) 0xFF; Z.land (Z.shiftr v 16) 0xFF;
   Z.land (Z.shiftr v 8) 0xFF; Z.land v 0xFF].

Definition be64 (v : Z) : list Z :=
  [Z.land (Z.shiftr v 56) 0xFF; Z.land (Z.shiftr v 48) 0xFF;
   Z.land (Z.shiftr v 40) 0xFF; Z.land (Z.shiftr v 32) 0xFF;
   Z.land (Z.shiftr v 24) 0xFF; Z.land (Z.shiftr v 16) 0xFF;
   Z.land (Z.shiftr v 8) 0xFF; Z.land v 0xFF].

(** The encoding of an address: type 0, then 32 bytes. *)
Definition address_bytes (key : list Z) : list Z := be32 0 ++ firstn 32 key.

(** The passphrase as a C string: the characters before the first NUL, at
    most 1024 of them. *)
Definition passphrase (msg : StellarSignTx.t) : list Z :=
  firstn (C.strnlen (StellarSignTx.network_passphrase msg) 1024)
         (StellarSignTx.network_passphrase msg).

Definition timebounds_bytes (msg : StellarSignTx.t) : list Z :=
  if (StellarSignTx.timebounds_start msg >? 0) || (StellarSignTx.timebounds_end msg >? 0)
  then be32 1 ++ be32 0 ++ be32 (StellarSignTx.timebounds_start msg)
       ++ be32 0 ++ be32 (StellarSignTx.timebounds_end msg)
  else be32 0.

Definition memo_payload (msg : StellarSignTx.t) : list Z :=
  match StellarSignTx.memo_type msg with
  | 0 => []
  | 1 =>
      be32 (Z.of_nat (C.strnlen (StellarSignTx.memo_text msg) 28))
      ++ firstn (C.strnlen (StellarSignTx.memo_text msg) 28) (StellarSignTx.memo_text msg)
  | 2 => be64 (StellarSignTx.memo_id msg)
  | 3 | 4 =>
      firstn (size (StellarSignTx.memo_hash msg)) (bytes (StellarSignTx.memo_hash msg))
  | _ => []
  end.

Definition network_kind (msg : StellarSignTx.t) : Z :=
  if C.strncmp (C.chars "Public Global Stellar Network ; September 2015")
       (StellarSignTx.network_passphrase msg) 1024 =? 0
  then 1
  else if C.strncmp (C.chars "Test SDF Network ; September 2015")
            (StellarSignTx.network_passphrase msg) 1024 =? 0
  then 2
  else 3.

(** The 32 bytes that [stellar_getPubkeyAtIndex] copies out of a node. *)
Definition derived_pubkey {P : Primitives} (node : HDNode) : list Z :=
  firstn 32 (tl (public_key node)).

(** The header bytes that precede the memo, for the signer's key [pubkey]
    and the digest [network_hash] of the passphrase. *)
Definition header_before_memo (network_hash pubkey : list Z) (msg : StellarSignTx.t)
  : list Z :=
  firstn 32 network_hash ++ [0; 0; 0; 2]
  ++ address_bytes pubkey
  ++ be32 (StellarSignTx.fee msg)
  ++ be64 (StellarSignTx.sequence_number msg)
  ++ timebounds_bytes msg.

Definition header_bytes (network_hash pubkey : list Z) (msg : StellarSignTx.t) : list Z :=
  header_before_memo network_hash pubkey msg
  ++ be32 (StellarSignTx.memo_type msg)
  ++ memo_payload msg
  ++ be32 (StellarSignTx.num_operations msg).

(** The session that the header step installs. *)
Definition header_tx (network_hash pubkey : list Z) (msg : StellarSignTx.t)
  : StellarTransaction :=
  {| sha256_ctx := header_bytes network_hash pubkey msg;
     num_operations := C.uint32 (StellarSignTx.num_operations msg);
     confirmed_operations := 0;
     account_id := pubkey;
     account_index := C.uint32 (StellarSignTx.index msg);
     network_type := network_kind msg;
     memo_type := 0;
     xdr_offset := 0 |}.

(** The world after [sha256_Final] has been handed the context. *)
Definition finalized {P : Primitives} (w : World) : World :=
  with_tx (set_sha256_ctx (sha256_finalized (ctx w))) w.

(** Operations handed to [stellar_addOperation] one after the other. *)
Definition run_operations (ops : list StellarTxOpAck.t) (w : World) : World :=
  fold_left (fun w msg => stellar_addOperation msg w) ops w.

Definition outcome_map {A B : Type} (f : A -> B) (m : outcome A) : outcome B :=
  match m with
  | Done a => Done (f a)
  | Undefined => Undefined
  end.

(** *** CRC16 as the XMODEM variant is usually written

    The register is shifted left once per message bit; the bit that leaves
    the register selects whether the polynomial [0x1021] is added.  A byte
    enters at the top of the register, most significant bit first.  The
    register starts at zero, and nothing is reflected or inverted. *)
Definition crc16_xmodem_shift (crc : Z) : Z :=
  if Z.testbit crc 15
  then Z.lxor (C.uint16 (Z.shiftl crc 1)) 0x1021
  else C.uint16 (Z.shiftl crc 1).

Definition crc16_xmodem_byte (crc byte : Z) : Z :=
  Nat.iter 8 crc16_xmodem_shift (Z.lxor crc (Z.shiftl byte 8)).

Definition crc16_xmodem (data : list Z) : Z :=
  fold_left crc16_xmodem_byte data 0.

(** The StrKey payload of an account: version byte, key, checksum with the
    low byte first. *)
Definition strkey_payload (key : list Z) : list Z :=
  let version_byte := Z.shiftl 6 3 in
  let checksum := crc16_xmodem (version_byte :: key) in
  version_byte :: key ++ [checksum mod 256; checksum / 256].

(** *** What the specification says a payment appends to the accumulator *)
Definition spec_asset_bytes (asset : StellarAssetType.t) : list Z :=
  match StellarAssetType.type asset with
  | 0 => be32 0
  | 1 =>
      be32 1 ++ firstn 4 (StellarAssetType.code asset)
      ++ firstn 32 (bytes (StellarAssetType.issuer asset))
  | 2 =>
      be32 2 ++ firstn 12 (StellarAssetType.code asset)
      ++ firstn 32 (bytes (StellarAssetType.issuer asset))
  | _ => []
  end.

Definition spec_payment_bytes (msg : StellarTxOpAck.t) : list Z :=
  address_bytes (bytes (StellarTxOpAck.destination_account msg))
  ++ spec_asset_bytes (StellarTxOpAck.asset msg)
  ++ be64 (StellarTxOpAck.amount msg).

(** What [stellar_confirmPaymentOp] appends. *)
Definition code_asset_bytes (asset : StellarAssetType.t) : list Z :=
  (if StellarAssetType.type asset =? 0 then be32 (StellarAssetType.type asset) else [])
  ++ (if StellarAssetType.type asset =? 1
      then firstn 4 (StellarAssetType.code asset) else [])
  ++ (if StellarAssetType.type asset =? 2
      then firstn 12 (StellarAssetType.code asset) else [])
  ++ (if (StellarAssetType.type asset =? 1) || (StellarAssetType.type asset =? 2)
      then firstn (size (StellarAssetType.issuer asset))
             (bytes (StellarAssetType.issuer asset))
      else []).

Definition code_payment_bytes (msg : StellarTxOpAck.t) : list Z :=
  address_bytes (bytes (StellarTxOpAck.destination_account msg))
  ++ code_asset_bytes (StellarTxOpAck.asset msg)
  ++ be64 (StellarTxOpAck.amount msg).

Definition is_failure (e : Event) : bool :=
  match e with
  | SendFailure _ _ => true
  | _ => false
  end.

Definition is_dialog (e : Event) : bool :=
  match e with
  | Dialog _ | ButtonRequest _ => true
  | _ => false
  end.

(** *** The claims that the code does not meet, as the specification words them *)

(** The events of [w'] that [w] did not have yet. *)
Definition new_events (w w' : World) : list Event :=
  skipn (List.length (trace w)) (trace w').

(** The source account field of an operation: the address, or the flag
    [false] when there is none. *)
Definition source_field (msg : StellarTxOpAck.t) : list Z :=
  if (0 <? size (StellarTxOpAck.source_account msg))%nat
  then address_bytes (bytes (StellarTxOpAck.source_account msg))
  else be32 0.


(** Finalization returns a signature and leaves the session inactive. *)
Definition spec_finalize_resets {P : Primitives} (w : World) : Prop :=
  exists signature w',
    stellar_getSignatureForActiveTx w = Done (signature, w')
    /\ stellar_signing w' = false.

(** An operation of another type hashes its source field and its type,
    asks nothing, counts nothing and reports nothing. *)
Definition spec_other_type_operation (msg : StellarTxOpAck.t) (w : World) : Prop :=
  let w' := stellar_addOperation msg w in
  ctx w' = ctx w ++ source_field msg ++ be32 (StellarTxOpAck.type msg)
  /\ existsb is_dialog (new_events w w') = false
  /\ confirmed w' = confirmed w
  /\ existsb is_failure (new_events w w') = false.

(** The four zero bytes that close the envelope once every declared
    operation is confirmed. *)
Definition trailer (w : World) : list Z :=
  if confirmed w =? operations w then be32 0 else [].


(** Two worlds that hold the same session and meet the same user. *)
Definition same_view (w1 w2 : World) : Prop :=
  session w1 = session w2 /\ forall n, buttons w1 n = buttons w2 n.

(** ** Instances and inputs used to evaluate the embedding *)

(** Stand-ins for the primitives: a node is a pair of a private and a public
    key, the digest has 32 bytes and the signature 64; finalization clears
    the context. *)
Definition test_primitives : Primitives :=
  {| HDNode := list Z * list Z;
     private_key := fst;
     public_key := snd;
     sha256_Raw := fun m => firstn 32 (m ++ repeat 0 32);
     sha256_finalized := fun _ => [];
     ed25519_sign := fun m sk pk => firstn 64 (m ++ sk ++ repeat 0 64);
     storage_getRootNode := fun _ _ => Some (repeat 7 32, 1 :: repeat 9 32);
     hdnode_private_ckd_cached := fun node _ => Some node;
     hdnode_fill_public_key := fun node => node |}.

(** A device whose root node cannot be read. *)
Definition locked_device : Primitives :=
  {| HDNode := list Z * list Z;
     private_key := fst;
     public_key := snd;
     sha256_Raw := fun m => firstn 32 (m ++ repeat 0 32);
     sha256_finalized := fun _ => [];
     ed25519_sign := fun m sk pk => firstn 64 (m ++ sk ++ repeat 0 64);
     storage_getRootNode := fun _ _ => None;
     hdnode_private_ckd_cached := fun node _ => Some node;
     hdnode_fill_public_key := fun node => node |}.

Definition idle_world (answer : bool) : World :=
  {| stellar_signing := false;
     stellar_activeTx := zero_tx;
     trace := [];
     buttons := fun _ => answer |}.

Definition no_bytes : pb_bytes := {| size := 0; bytes := repeat 0 32 |}.

Definition key_bytes (b : Z) : pb_bytes := {| size := 32; bytes := repeat b 32 |}.

Definition native_asset : StellarAssetType.t :=
  {| StellarAssetType.type := 0;
     StellarAssetType.code := repeat 0 13;
     StellarAssetType.issuer := no_bytes |}.

(** The asset USD, a code of four characters, issued by the key [3 3 ... 3]. *)
Definition usd_asset : StellarAssetType.t :=
  {| StellarAssetType.type := 1;
     StellarAssetType.code := C.chars "USD" ++ repeat 0 10;
     StellarAssetType.issuer := key_bytes 3 |}.

Definition example_header_on (network : string) (operations : Z) (memo : Z)
  : StellarSignTx.t :=
  {| StellarSignTx.network_passphrase := C.chars network ++ [0];
     StellarSignTx.index := 0;
     StellarSignTx.fee := 100;
     StellarSignTx.sequence_number := 1;
     StellarSignTx.timebounds_start := 0;
     StellarSignTx.timebounds_end := 0;
     StellarSignTx.memo_type := memo;
     StellarSignTx.memo_text := repeat 0 29;
     StellarSignTx.memo_id := 0;
     StellarSignTx.memo_hash := no_bytes;
     StellarSignTx.num_operations := operations |}.

Definition example_header : Z -> Z -> StellarSignTx.t :=
  example_header_on "Public Global Stellar Network ; September 2015".

Definition example_create_account : StellarTxOpAck.t :=
  {| StellarTxOpAck.source_account := no_bytes;
     StellarTxOpAck.type := 0;
     StellarTxOpAck.destination_account := key_bytes 5;
     StellarTxOpAck.amount := 50000000;
     StellarTxOpAck.asset := native_asset |}.

Definition example_payment : StellarTxOpAck.t :=
  {| StellarTxOpAck.source_account := no_bytes;
     StellarTxOpAck.type := 1;
     StellarTxOpAck.destination_account := key_bytes 5;
     StellarTxOpAck.amount := 1000;
     StellarTxOpAck.asset := usd_asset |}.

(** An operation of type 5 that names a source account. *)
Definition example_other_operation : StellarTxOpAck.t :=
  {| StellarTxOpAck.source_account := key_bytes 4;
     StellarTxOpAck.type := 5;
     StellarTxOpAck.destination_account := no_bytes;
     StellarTxOpAck.amount := 0;
     StellarTxOpAck.asset := native_asset |}.

(** The world after the header step on a device where derivation works. *)
Definition started_world (operations : Z) (answer : bool) : World :=
  match stellar_signingInit (P := test_primitives)
          (example_header operations 0) (idle_world answer) with
  | Done w => w
  | Undefined => idle_world answer
  end.

(** ** Vocabulary of the further properties *)

(** The position of the first occurrence of a character in a string (the
    length of the string when there is none). *)
Fixpoint string_index (c : ascii) (s : string) : nat :=
  match s with
  | EmptyString => 0
  | String c' s' => if Ascii.eqb c c' then 0 else S (string_index c s')
  end.

(** The character of an alphabet that stands for a group of five bits. *)
Definition base32_char (alphabet : string) (group : Z) : ascii :=
  match String.get (Z.to_nat group) alphabet with
  | Some c => c
  | None => "="%char
  end.

(** A user who approves every request. *)
Definition accepting (w : World) : Prop := forall n, buttons w n = true.

(** The fields that the dispatch on the operation type hashes. *)
Definition operation_fields (msg : StellarTxOpAck.t) : list Z :=
  if StellarTxOpAck.type msg =? 0
  then address_bytes (bytes (StellarTxOpAck.destination_account msg))
       ++ be64 (StellarTxOpAck.amount msg)
  else if StellarTxOpAck.type msg =? 1 then code_payment_bytes msg
  else [].

(** The bytes of one operation: source account, type, fields. *)
Definition operation_bytes (msg : StellarTxOpAck.t) : list Z :=
  source_field msg ++ be32 (StellarTxOpAck.type msg) ++ operation_fields msg.

(** What every step of the state machine keeps: the accumulator and the
    trace only grow, the declared count, the signer and the network are
    left alone, and a failure is sent exactly on the steps that close the
    session. *)
Definition step (w w' : World) : Prop :=
  (exists bs, ctx w' = ctx w ++ bs)
  /\ (exists ev,
         trace w' = trace w ++ ev
         /\ ((stellar_signing w' = stellar_signing w /\ existsb is_failure ev = false)
             \/ (stellar_signing w' = false /\ existsb is_failure ev = true)))
  /\ operations w' = operations w
  /\ account_id (stellar_activeTx w') = account_id (stellar_activeTx w)
  /\ account_index (stellar_activeTx w') = account_index (stellar_activeTx w)
  /\ network_type (stellar_activeTx w') = network_type (stellar_activeTx w).

(** The end that the two confirmation functions share: the request to the
    user, then the abort or the count. *)
Definition confirm (w : World) : World :=
  let (ok, w') := protectButton w in
  if negb ok then stellar_signingAbort w'
  else with_tx (fun tx => set_confirmed_operations (confirmed_operations tx + 1) tx) w'.

(** The dialog of an operation of type 0 or 1. *)
Definition operation_prompt (msg : StellarTxOpAck.t) : Prompt :=
  let rows := stellar_lineBreakAddress (bytes (StellarTxOpAck.destination_account msg)) in
  if StellarTxOpAck.type msg =? 0
  then CreateAccount rows (StellarTxOpAck.amount msg)
  else Payment rows (StellarTxOpAck.asset msg) (StellarTxOpAck.amount msg).

(** The dialog on the source account of an operation. *)
Definition source_prompt (msg : StellarTxOpAck.t) : Prompt :=
  OpSourceAccount (stellar_lineBreakAddress (bytes (StellarTxOpAck.source_account msg))).

(** The answer to an operation that arrives outside a session. *)
Definition unexpected_message : list Event :=
  [SendFailure FailureType_Failure_UnexpectedMessage
     (Some "Not in Stellar signing mode"%string); LayoutHome].

(** * Part II: properties *)

(** ** Hash builder *)

Local Ltac list_eq :=
  repeat match goal with
         | |- _ :: _ = _ :: _ => apply (f_equal2 cons)
         | |- [] = [] => reflexivity
         end.

Lemma testbit_255_high (i : Z) : 8 <= i -> Z.testbit 255 i = false.
Proof.
  intros H. change 255 with (Z.ones 8). apply Z.ones_spec_high. lia.
Qed.

Lemma low_byte_ext (a b : Z) :
  (forall i, 0 <= i < 8 -> Z.testbit a i = Z.testbit b i) ->
  Z.land a 0xFF = Z.land b 0xFF.
Proof.
  intros H. apply Z.bits_inj'. intros i Hi. rewrite !Z.land_spec.
  destruct (Z.ltb_spec i 8).
  - rewrite H by lia. reflexivity.
  - rewrite testbit_255_high by lia. rewrite !andb_false_r. reflexivity.
Qed.

(** The bits of [v] are abstracted to a function, so that each of the eight
    bit positions of a byte evaluates. *)
Local Ltac bits_of v :=
  repeat (rewrite ?Z.land_spec, ?Z.lor_spec, ?Z.shiftr_spec', ?Z.shiftl_spec');
  let f := fresh "f" in
  set (f := Z.testbit v); clearbody f.

Local Ltac byte_eq v :=
  apply low_byte_ext;
  let i := fresh "i" in
  let Hi := fresh "Hi" in
  let Hc := fresh "Hc" in
  intros i Hi; bits_of v;
  assert (Hc : i = 0 \/ i = 1 \/ i = 2 \/ i = 3 \/
               i = 4 \/ i = 5 \/ i = 6 \/ i = 7) by lia;
  clear Hi;
  repeat (destruct Hc as [Hc|Hc]); subst i; cbv;
  repeat match goal with
         | |- context [match ?f ?k with _ => _ end] => destruct (f k)
         end;
  reflexivity.

Lemma reverse32_bytes (v : Z) :
  let value := REVERSE32 (C.uint32 v) in
  [Z.land value 0xFF; Z.land (Z.shiftr value 8) 0xFF;
   Z.land (Z.shiftr value 16) 0xFF; Z.land (Z.shiftr value 24) 0xFF] = be32 v.
Proof.
  unfold be32, REVERSE32, C.uint32. cbv zeta. list_eq; byte_eq v.
Qed.

Lemma reverse64_bytes (v : Z) :
  let value := REVERSE64 (C.uint64 v) in
  [Z.land value 0xFF; Z.land (Z.shiftr value 8) 0xFF;
   Z.land (Z.shiftr value 16) 0xFF; Z.land (Z.shiftr value 24) 0xFF;
   Z.land (Z.shiftr value 32) 0xFF; Z.land (Z.shiftr value 40) 0xFF;
   Z.land (Z.shiftr value 48) 0xFF; Z.land (Z.shiftr value 56) 0xFF] = be64 v.
Proof.
  unfold be64, REVERSE64, C.uint64. cbv zeta. list_eq; byte_eq v.
Qed.

Example reverse32_example : REVERSE32 0x01020304 = 0x04030201.
Proof. reflexivity. Qed.

Example reverse64_example : REVERSE64 0x0102030405060708 = 0x0807060504030201.
Proof. reflexivity. Qed.

Lemma hashupdate_bytes_absorb (data : list Z) (len : nat) (w : World) :
  stellar_hashupdate_bytes data len w = absorb (firstn len data) w.
Proof. reflexivity. Qed.

Lemma hashupdate_uint32_absorb (v : Z) (w : World) :
  stellar_hashupdate_uint32 v w = absorb (be32 v) w.
Proof.
  rewrite <- reverse32_bytes. reflexivity.
Qed.

Lemma hashupdate_uint64_absorb (v : Z) (w : World) :
  stellar_hashupdate_uint64 v w = absorb (be64 v) w.
Proof.
  rewrite <- reverse64_bytes. reflexivity.
Qed.

(** ** CRC16 *)

Lemma land_1_testbit (x k : Z) :
  0 <= k -> (Z.land (Z.shiftr x k) 1 =? 1) = Z.testbit x k.
Proof.
  intros Hk. rewrite <- (Z.add_0_l k) at 2. rewrite <- Z.shiftr_spec by lia.
  rewrite Z.bit0_odd. change 1 with (Z.ones 1) at 1. rewrite Z.land_ones by lia.
  change (2 ^ 1) with 2. rewrite Zmod_odd. destruct (Z.odd (Z.shiftr x k)); reflexivity.
Qed.

Lemma testbit_uint16 (x i : Z) :
  0 <= i -> Z.testbit (C.uint16 x) i = Z.testbit x i && (i <? 16).
Proof.
  intros Hi. unfold C.uint16. change 0xFFFF with (Z.ones 16).
  rewrite Z.land_spec, Z.testbit_ones_nonneg by lia. reflexivity.
Qed.

Lemma uint16_range (x : Z) : 0 <= C.uint16 x < 2 ^ 16.
Proof.
  unfold C.uint16. change 0xFFFF with (Z.ones 16). rewrite Z.land_ones by lia.
  apply Z.mod_pos_bound. lia.
Qed.

Lemma uint16_small (x : Z) : 0 <= x < 2 ^ 16 -> C.uint16 x = x.
Proof.
  intros H. unfold C.uint16. change 0xFFFF with (Z.ones 16).
  rewrite Z.land_ones by lia. apply Z.mod_small. exact H.
Qed.

Lemma testbit_high (x i : Z) : 0 <= x < 2 ^ 16 -> 16 <= i -> Z.testbit x i = false.
Proof.
  intros Hx Hi. rewrite <- (uint16_small x Hx), testbit_uint16 by lia.
  destruct (Z.ltb_spec i 16); [lia | apply andb_false_r].
Qed.

Lemma lxor_range (x y : Z) :
  0 <= x < 2 ^ 16 -> 0 <= y < 2 ^ 16 -> 0 <= Z.lxor x y < 2 ^ 16.
Proof.
  intros Hx Hy.
  assert (E : C.uint16 (Z.lxor x y) = Z.lxor x y).
  { apply Z.bits_inj'. intros i Hi. rewrite testbit_uint16, Z.lxor_spec by lia.
    destruct (Z.ltb_spec i 16); [apply andb_true_r |].
    rewrite !testbit_high by lia. reflexivity. }
  rewrite <- E. apply uint16_range.
Qed.

(** One turn of the loop of the code, seen from the register of the usual
    formulation: the bits of the byte still to come sit in [m]. *)
Lemma crc16_bit_shift (byte r m j : Z) :
  0 <= j <= 7 ->
  Z.testbit m 15 = Z.testbit byte (7 - j) ->
  crc16_xmodem_shift (Z.lxor r m)
  = Z.lxor (crc16_bit 0x1021 byte r j) (C.uint16 (Z.shiftl m 1)).
Proof.
  intros Hj Hm. unfold crc16_xmodem_shift, crc16_bit.
  rewrite !land_1_testbit by lia. rewrite Z.lxor_spec, Hm.
  assert (E : C.uint16 (Z.shiftl (Z.lxor r m) 1)
              = Z.lxor (C.uint16 (Z.shiftl r 1)) (C.uint16 (Z.shiftl m 1))).
  { apply Z.bits_inj'. intros i Hi.
    rewrite Z.lxor_spec, !testbit_uint16, !Z.shiftl_spec, Z.lxor_spec by lia.
    destruct (i <? 16); btauto. }
  rewrite E.
  destruct (xorb (Z.testbit r 15) (Z.testbit byte (7 - j))).
  - rewrite (uint16_small (Z.lxor (C.uint16 (Z.shiftl r 1)) 0x1021))
      by (apply lxor_range; [apply uint16_range | lia]).
    rewrite !Z.lxor_assoc. f_equal. apply Z.lxor_comm.
  - reflexivity.
Qed.

Lemma crc16_bits_shift (byte : Z) (n : nat) :
  forall (j : nat) (r : Z),
    (j + n <= 8)%nat ->
    Nat.iter n crc16_xmodem_shift
      (Z.lxor r (C.uint16 (Z.shiftl byte (8 + Z.of_nat j))))
    = Z.lxor (fold_left (crc16_bit 0x1021 byte) (map Z.of_nat (seq j n)) r)
             (C.uint16 (Z.shiftl byte (8 + Z.of_nat (j + n)))).
Proof.
  induction n as [|n IH]; intros j r Hj.
  - rewrite Nat.add_0_r. reflexivity.
  - rewrite Nat.iter_succ_r. cbn [seq map fold_left].
    rewrite (crc16_bit_shift byte r _ (Z.of_nat j)).
    + replace (C.uint16 (Z.shiftl (C.uint16 (Z.shiftl byte (8 + Z.of_nat j))) 1))
        with (C.uint16 (Z.shiftl byte (8 + Z.of_nat (S j)))).
      * rewrite IH by lia. do 3 f_equal. lia.
      * apply Z.bits_inj'. intros i Hi.
        rewrite !testbit_uint16, !Z.shiftl_spec by lia.
        destruct (Z.ltb_spec i 16); rewrite ?andb_false_r, ?andb_true_r; [|reflexivity].
        destruct (Z.eq_dec i 0) as [->|Hne].
        -- rewrite !Z.testbit_neg_r by lia. reflexivity.
        -- rewrite testbit_uint16, Z.shiftl_spec by lia.
           destruct (Z.ltb_spec (i - 1) 16); [|lia].
           rewrite andb_true_r. f_equal. lia.
    + lia.
    + rewrite testbit_uint16, Z.shiftl_spec by lia. cbn [Z.ltb Z.compare Pos.compare Pos.compare_cont].
      rewrite andb_true_r. f_equal. lia.
Qed.

Lemma crc16_byte_loop (byte r : Z) :
  0 <= byte < 256 ->
  fold_left (crc16_bit 0x1021 byte) (map Z.of_nat (seq 0 8)) r
  = crc16_xmodem_byte r byte.
Proof.
  intros Hb. unfold crc16_xmodem_byte.
  pose proof (crc16_bits_shift byte 8 0 r (Nat.le_refl _)) as H.
  change (8 + Z.of_nat 0) with 8 in H. change (8 + Z.of_nat (0 + 8)) with 16 in H.
  rewrite uint16_small in H.
  2:{ rewrite Z.shiftl_mul_pow2 by lia. lia. }
  rewrite H.
  replace (C.uint16 (Z.shiftl byte 16)) with 0; [symmetry; apply Z.lxor_0_r |].
  symmetry. apply Z.bits_inj'. intros i Hi.
  rewrite testbit_uint16, Z.shiftl_spec, Z.bits_0 by lia.
  destruct (Z.ltb_spec i 16); [|apply andb_false_r].
  rewrite Z.testbit_neg_r by lia. reflexivity.
Qed.

Lemma crc16_xmodem_shift_range (x : Z) : 0 <= crc16_xmodem_shift x < 2 ^ 16.
Proof.
  unfold crc16_xmodem_shift. destruct (Z.testbit x 15).
  - apply lxor_range; [apply uint16_range | lia].
  - apply uint16_range.
Qed.

Lemma crc16_xmodem_byte_range (crc byte : Z) : 0 <= crc16_xmodem_byte crc byte < 2 ^ 16.
Proof.
  unfold crc16_xmodem_byte. cbn [Nat.iter nat_rect]. apply crc16_xmodem_shift_range.
Qed.

Lemma crc16_xmodem_range (data : list Z) : 0 <= crc16_xmodem data < 2 ^ 16.
Proof.
  unfold crc16_xmodem.
  assert (H : forall l a, 0 <= a < 2 ^ 16 -> 0 <= fold_left crc16_xmodem_byte l a < 2 ^ 16).
  { induction l as [|b l IH]; intros a Ha; [exact Ha |].
    cbn [fold_left]. apply IH, crc16_xmodem_byte_range. }
  apply H. lia.
Qed.

Lemma fold_left_map_seq {A : Type} (g : A -> nat -> A) (s : list nat) (a : A) :
  fold_left g (map S s) a = fold_left (fun a i => g a (S i)) s a.
Proof.
  revert a. induction s as [|i s IH]; intros a; [reflexivity | apply IH].
Qed.

Lemma fold_left_nth_app {A : Type} (h : A -> Z -> A) (l rest : list Z) :
  forall a : A,
    fold_left (fun a i => h a (nth i (l ++ rest) 0)) (seq 0 (List.length l)) a
    = fold_left h l a.
Proof.
  induction l as [|b l IH]; intros a; [reflexivity |].
  cbn [List.length seq fold_left]. rewrite <- seq_shift, fold_left_map_seq.
  cbn [app nth]. apply IH.
Qed.

Lemma fold_left_ext_bytes (f g : Z -> Z -> Z) (l : list Z) :
  (forall a b, 0 <= b < 256 -> f a b = g a b) ->
  C.is_bytes l = true ->
  forall a, fold_left f l a = fold_left g l a.
Proof.
  intros Hfg. induction l as [|b l IH]; intros Hl a; [reflexivity |].
  cbn [C.is_bytes forallb] in Hl. apply andb_prop in Hl as [Hb Hl].
  cbn [fold_left]. rewrite Hfg; [apply IH; exact Hl |].
  unfold C.is_uint8 in Hb. lia.
Qed.

(** The loop of the code computes the CRC16 of the XMODEM variant. *)
Lemma stellar_crc16_xmodem (l rest : list Z) :
  C.is_bytes l = true ->
  stellar_crc16 (l ++ rest) (List.length l) = crc16_xmodem l.
Proof.
  intros Hl. unfold stellar_crc16.
  rewrite (fold_left_nth_app
             (fun crc byte => fold_left (crc16_bit 0x1021 byte) (map Z.of_nat (seq 0 8)) crc)).
  rewrite (fold_left_ext_bytes _ crc16_xmodem_byte l) by (auto using crc16_byte_loop).
  fold (crc16_xmodem l). apply (uint16_small _ (crc16_xmodem_range l)).
Qed.

(** ** The address codec *)

Lemma store_at_length (l rest : list Z) (x v : Z) :
  C.store (l ++ x :: rest) (List.length l) v = l ++ v :: rest.
Proof.
  unfold C.store. induction l as [|a l IH]; [reflexivity |].
  cbn [List.length app firstn skipn]. cbn [skipn] in IH. rewrite IH. reflexivity.
Qed.

Lemma length_string_of_list (l : list ascii) :
  String.length (string_of_list_ascii l) = List.length l.
Proof.
  induction l as [|c l IH]; [reflexivity |]. cbn. rewrite IH. reflexivity.
Qed.

Lemma base32_encode_length (data : list Z) (alphabet : string) :
  String.length (base32_encode data alphabet)
  = base32_encoded_length (List.length data).
Proof.
  unfold base32_encode. rewrite length_string_of_list, length_map, length_seq.
  reflexivity.
Qed.

Lemma strkey_payload_length (key : list Z) :
  List.length (strkey_payload key) = (List.length key + 3)%nat.
Proof.
  unfold strkey_payload. cbn [List.length]. rewrite length_app. cbn [List.length]. lia.
Qed.

Lemma address_payload (key : list Z) :
  List.length key = 32%nat ->
  C.is_bytes key = true ->
  let bytes_full := C.memcpy (C.store (repeat 0 35) 0 (C.uint8 (Z.shiftl 6 3))) 1 key 32 in
  let checksum := stellar_crc16 bytes_full 33 in
  C.store (C.store bytes_full 33 (Z.land checksum 0x00ff)) 34
          (Z.land (Z.shiftr checksum 8) 0x00ff)
  = strkey_payload key.
Proof.
  intros Hlen Hkey bytes_full checksum.
  assert (Hfull : bytes_full = (48 :: key) ++ [0; 0]).
  { unfold bytes_full, C.memcpy. rewrite (firstn_all2 (n := 32) key) by lia. reflexivity. }
  assert (Hcrc : checksum = crc16_xmodem (48 :: key)).
  { unfold checksum. rewrite Hfull.
    replace 33%nat with (List.length (48 :: key)) by (cbn [List.length]; lia).
    apply stellar_crc16_xmodem. unfold C.is_bytes in *. cbn [forallb].
    rewrite Hkey. reflexivity. }
  pose proof (crc16_xmodem_range (48 :: key)) as Hrange. rewrite <- Hcrc in Hrange.
  rewrite Hfull.
  replace 34%nat with (List.length ((48 :: key) ++ [Z.land checksum 255])).
  2:{ rewrite length_app. cbn [List.length]. lia. }
  replace 33%nat with (List.length (48 :: key)) by (cbn [List.length]; lia).
  rewrite store_at_length.
  replace ((48 :: key) ++ [Z.land checksum 255; 0])
    with (((48 :: key) ++ [Z.land checksum 255]) ++ [0])
    by (rewrite <- app_assoc; reflexivity).
  rewrite store_at_length, <- app_assoc.
  unfold strkey_payload. change (Z.shiftl 6 3) with 48. cbv zeta. rewrite <- Hcrc.
  cbn [app]. do 2 f_equal.
  change 255 with (Z.ones 8). rewrite !Z.land_ones, Z.shiftr_div_pow2 by lia.
  change (2 ^ 8) with 256. f_equal.
  rewrite Z.mod_small; [reflexivity |].
  split; [apply Z.div_pos; lia | apply Z.div_lt_upper_bound; lia].
Qed.

(** C6: for a key of 32 bytes, [stellar_publicAddressAsStr] leaves in [out]
    the unpadded RFC 4648 base32 text of the 35-byte payload made of the
    version byte [6 << 3], the key, and the CRC16 (XMODEM variant) of the
    version byte and the key with its low byte first; that text has 56
    characters, and 56 is the value returned. *)
Theorem stellar_publicAddressAsStr_strkey (key : list Z) :
  List.length key = 32%nat ->
  C.is_bytes key = true ->
  stellar_publicAddressAsStr key
  = (base32_encode (strkey_payload key) BASE32_ALPHABET_RFC4648, 56)
  /\ List.length (strkey_payload key) = 35%nat
  /\ String.length (fst (stellar_publicAddressAsStr key)) = 56%nat.
Proof.
  intros Hlen Hkey.
  assert (E : stellar_publicAddressAsStr key
              = (base32_encode (strkey_payload key) BASE32_ALPHABET_RFC4648, 56)).
  { unfold stellar_publicAddressAsStr. cbv zeta.
    change (1 + 32 + 2 - 2)%nat with 33%nat. change (1 + 32 + 2 - 1)%nat with 34%nat.
    change (1 + 32 + 2)%nat with 35%nat.
    rewrite (address_payload key Hlen Hkey). reflexivity. }
  split; [exact E |]. split.
  - rewrite strkey_payload_length, Hlen. reflexivity.
  - rewrite E. cbn [fst]. rewrite base32_encode_length, strkey_payload_length, Hlen.
    reflexivity.
Qed.

Lemma stellar_publicAddressAsStr_strkey_witness :
  List.length (repeat 5 32) = 32%nat
  /\ C.is_bytes (repeat 5 32) = true
  /\ stellar_publicAddressAsStr (repeat 5 32)
     = (base32_encode (strkey_payload (repeat 5 32)) BASE32_ALPHABET_RFC4648, 56)
  /\ List.length (strkey_payload (repeat 5 32)) = 35%nat
  /\ String.length (fst (stellar_publicAddressAsStr (repeat 5 32))) = 56%nat.
Proof.
  split; [reflexivity |]. split; [reflexivity |].
  apply (stellar_publicAddressAsStr_strkey (repeat 5 32)); reflexivity.
Defined.

Example crc16_check_value : stellar_crc16 (C.chars "123456789") 9 = 0x31C3.
Proof. vm_compute. reflexivity. Qed.

Example base32_rfc4648_vectors :
  map (fun s => base32_encode (C.chars s) BASE32_ALPHABET_RFC4648)
      ["f"; "fo"; "foo"; "foob"; "fooba"; "foobar"]%string
  = ["MY"; "MZXQ"; "MZXW6"; "MZXW6YQ"; "MZXW6YTB"; "MZXW6YTBOI"]%string.
Proof. vm_compute. reflexivity. Qed.

Example zero_key_address :
  fst (stellar_publicAddressAsStr (repeat 0 32))
  = "GAAAAAAAAAAAAAAAAAAAAAAAAAAAAAAAAAAAAAAAAAAAAAAAAAAAAWHF"%string.
Proof. vm_compute. reflexivity. Qed.

(** ** The accumulator *)

Lemma absorb_nil (w : World) : absorb [] w = w.
Proof.
  destruct w as [s [c n k a i t m x] tr b].
  unfold absorb, with_tx, append_ctx. cbn. rewrite app_nil_r. reflexivity.
Qed.

Lemma absorb_absorb (a b : list Z) (w : World) :
  absorb b (absorb a w) = absorb (a ++ b) w.
Proof.
  unfold absorb, with_tx, append_ctx. cbn. rewrite app_assoc. reflexivity.
Qed.

Lemma hashupdate_bool_absorb (b : bool) (w : World) :
  stellar_hashupdate_bool b w = absorb (be32 (if b then 1 else 0)) w.
Proof.
  unfold stellar_hashupdate_bool. destruct b; apply hashupdate_uint32_absorb.
Qed.

Lemma hashupdate_string_absorb (data : list Z) (len : nat) (w : World) :
  stellar_hashupdate_string data len w
  = absorb (be32 (Z.of_nat len) ++ firstn len data) w.
Proof.
  unfold stellar_hashupdate_string.
  rewrite hashupdate_uint32_absorb, hashupdate_bytes_absorb. apply absorb_absorb.
Qed.

Lemma hashupdate_address_absorb (key : list Z) (w : World) :
  stellar_hashupdate_address key w = absorb (address_bytes key) w.
Proof.
  unfold stellar_hashupdate_address.
  rewrite hashupdate_uint32_absorb, hashupdate_bytes_absorb. apply absorb_absorb.
Qed.

Create Rewrite HintDb hashupdate.

#[local] Hint Rewrite hashupdate_bytes_absorb hashupdate_uint32_absorb
  hashupdate_uint64_absorb hashupdate_bool_absorb hashupdate_string_absorb
  hashupdate_address_absorb : hashupdate.

Section Header.

Context {P : Primitives}.

Lemma getPubkeyAtIndex_derived (index : Z) (node : HDNode) :
  stellar_deriveNode index = Some node ->
  stellar_getPubkeyAtIndex index (repeat 0 32) 32 = Done (derived_pubkey node).
Proof.
  intros H. unfold stellar_getPubkeyAtIndex. rewrite H.
  cbn [Nat.ltb Nat.leb]. unfold C.memcpy, derived_pubkey.
  cbn [firstn skipn repeat Nat.add app]. rewrite app_nil_r. reflexivity.
Qed.

Lemma timebounds_absorb (msg : StellarSignTx.t) (w : World) :
  (if (StellarSignTx.timebounds_start msg >? 0)
      || (StellarSignTx.timebounds_end msg >? 0)
   then
     stellar_hashupdate_uint32 (StellarSignTx.timebounds_end msg)
       (stellar_hashupdate_uint32 0
          (stellar_hashupdate_uint32 (StellarSignTx.timebounds_start msg)
             (stellar_hashupdate_uint32 0 (stellar_hashupdate_bool true w))))
   else stellar_hashupdate_bool false w)
  = absorb (timebounds_bytes msg) w.
Proof.
  unfold timebounds_bytes.
  destruct ((StellarSignTx.timebounds_start msg >? 0)
            || (StellarSignTx.timebounds_end msg >? 0)).
  - autorewrite with hashupdate. rewrite !absorb_absorb, <- ?app_assoc. reflexivity.
  - autorewrite with hashupdate. reflexivity.
Qed.

Lemma memo_absorb (msg : StellarSignTx.t) (w : World) :
  match StellarSignTx.memo_type msg with
  | 0 => w
  | 1 =>
      stellar_hashupdate_string (StellarSignTx.memo_text msg)
        (C.strnlen (StellarSignTx.memo_text msg) 28) w
  | 2 => stellar_hashupdate_uint64 (StellarSignTx.memo_id msg) w
  | 3 | 4 =>
      stellar_hashupdate_bytes (bytes (StellarSignTx.memo_hash msg))
        (size (StellarSignTx.memo_hash msg)) w
  | _ => w
  end = absorb (memo_payload msg) w.
Proof.
  unfold memo_payload.
  destruct (StellarSignTx.memo_type msg) as [|[[p|p|]|[p|[p|p|]|]|]|p];
    autorewrite with hashupdate; rewrite ?absorb_nil; reflexivity.
Qed.

Lemma network_type_if (c1 c2 : bool) (w : World) :
  (if c1 then with_tx (set_network_type 1) w
   else if c2 then with_tx (set_network_type 2) w
   else with_tx (set_network_type 3) w)
  = with_tx (set_network_type (if c1 then 1 else if c2 then 2 else 3)) w.
Proof. destruct c1, c2; reflexivity. Qed.

(** The header step installs a session that is a function of the message
    and of the derived key alone. *)
Lemma signingInit_done (msg : StellarSignTx.t) (w : World) (node : HDNode) :
  stellar_deriveNode (StellarSignTx.index msg) = Some node ->
  stellar_signingInit msg w
  = Done {| stellar_signing := true;
            stellar_activeTx :=
              header_tx (sha256_Raw (passphrase msg)) (derived_pubkey node) msg;
            trace := trace w;
            buttons := buttons w |}.
Proof.
  intros H. unfold stellar_signingInit. cbv zeta.
  rewrite (getPubkeyAtIndex_derived _ _ H). cbn [bind].
  rewrite network_type_if, memo_absorb, timebounds_absorb.
  autorewrite with hashupdate. rewrite !absorb_absorb. f_equal.
  unfold absorb, with_tx, header_tx, header_bytes, header_before_memo, network_kind.
  cbn [stellar_signing stellar_activeTx trace buttons set_signing].
  f_equal.
  unfold set_network_type, append_ctx, set_account, set_num_operations, sha256_Init, zero_tx.
  cbn [sha256_ctx num_operations confirmed_operations account_id account_index
       network_type memo_type xdr_offset app].
  repeat first [rewrite <- app_assoc | progress cbn [app]]. reflexivity.
Qed.

Lemma signingInit_undefined (msg : StellarSignTx.t) (w : World) :
  stellar_deriveNode (StellarSignTx.index msg) = None ->
  stellar_signingInit msg w = Undefined.
Proof.
  intros H. unfold stellar_signingInit, stellar_getPubkeyAtIndex. cbv zeta.
  rewrite H. reflexivity.
Qed.

End Header.

(** ** Operations *)

(** Unfolds the steps on the world down to its fields. *)
Local Ltac world :=
  rewrite ?absorb_absorb;
  unfold ctx, confirmed, operations, session, stellar_allOperationsConfirmed in *;
  cbn [stellar_signingAbort stellar_layoutTransactionDialog fsm_sendFailure
       layoutHome protectButton emit set_signing absorb with_tx
       set_confirmed_operations append_ctx ctx confirmed operations session
       stellar_allOperationsConfirmed
       stellar_signing stellar_activeTx trace buttons sha256_ctx num_operations
       confirmed_operations account_id account_index network_type memo_type
       xdr_offset fst snd negb] in *.



Lemma confirmCreateAccountOp_ctx (msg : StellarTxOpAck.t) (w : World) :
  ctx (stellar_confirmCreateAccountOp msg w)
  = ctx w ++ address_bytes (bytes (StellarTxOpAck.destination_account msg))
      ++ be64 (StellarTxOpAck.amount msg).
Proof.
  unfold stellar_confirmCreateAccountOp. cbv zeta. autorewrite with hashupdate.
  rewrite absorb_absorb. world. destruct (buttons w 0%nat); world; reflexivity.
Qed.

Lemma confirmPaymentOp_ctx (msg : StellarTxOpAck.t) (w : World) :
  ctx (stellar_confirmPaymentOp msg w) = ctx w ++ code_payment_bytes msg.
Proof.
  unfold stellar_confirmPaymentOp, code_payment_bytes, code_asset_bytes. cbv zeta.
  autorewrite with hashupdate.
  destruct (StellarAssetType.type (StellarTxOpAck.asset msg) =? 0),
    (StellarAssetType.type (StellarTxOpAck.asset msg) =? 1),
    (StellarAssetType.type (StellarTxOpAck.asset msg) =? 2);
    cbn [orb]; rewrite ?absorb_absorb; world;
    destruct (buttons w 0%nat); world;
    repeat first [rewrite <- app_assoc | progress cbn [app]]; reflexivity.
Qed.










(** An operation sent while no session is open is refused. *)
Lemma addOperation_not_signing (msg : StellarTxOpAck.t) (w : World) :
  stellar_signing w = false ->
  session (stellar_addOperation msg w) = session w
  /\ trace (stellar_addOperation msg w)
     = trace w ++ [SendFailure FailureType_Failure_UnexpectedMessage
                     (Some "Not in Stellar signing mode"%string); LayoutHome].
Proof.
  intros H. unfold stellar_addOperation. rewrite H. cbn [negb]. world.
  rewrite <- app_assoc. split; reflexivity.
Qed.

(** ** Payment *)

(** C1, at a payment in the asset USD (a code of four characters): the
    bytes that [stellar_confirmPaymentOp] appends are the destination
    address, the four code bytes, the issuer and the amount; the asset type
    [00 00 00 01], which the specification places before the code, is
    missing. *)
Theorem confirmPaymentOp_alphanum4_bytes :
  let w := started_world 1 true in
  ctx (stellar_confirmPaymentOp example_payment w)
  = ctx w ++ address_bytes (repeat 5 32)
      ++ [85; 83; 68; 0] ++ repeat 3 32 ++ be64 1000
  /\ spec_payment_bytes example_payment
     = address_bytes (repeat 5 32)
         ++ [0; 0; 0; 1] ++ [85; 83; 68; 0] ++ repeat 3 32 ++ be64 1000.
Proof.
  cbv zeta. rewrite confirmPaymentOp_ctx. split; vm_compute; reflexivity.
Qed.

(** For the native asset the code and the specification agree. *)
Lemma native_asset_bytes (asset : StellarAssetType.t) :
  StellarAssetType.type asset = 0 -> code_asset_bytes asset = spec_asset_bytes asset.
Proof.
  intros H. unfold code_asset_bytes, spec_asset_bytes. rewrite H. reflexivity.
Qed.

(** ** Counting operations *)


Section Counting.

Context {P : Primitives}.


End Counting.


(** ** The header step *)

Section HeaderStep.

Context {P : Primitives}.

(** C5: when the key of the account derives, the header step completes and
    the first 36 bytes of the accumulator are the SHA-256 digest of the
    passphrase followed by [00 00 00 02], whatever else the message
    holds. *)
Theorem signingInit_first_36_bytes
    (msg : StellarSignTx.t) (w : World) (node : HDNode) :
  (forall m, List.length (sha256_Raw m) = 32%nat) ->
  stellar_deriveNode (StellarSignTx.index msg) = Some node ->
  exists w',
    stellar_signingInit msg w = Done w'
    /\ firstn 36 (ctx w') = sha256_Raw (passphrase msg) ++ [0; 0; 0; 2].
Proof.
  intros Hlen Hd. eexists. split; [apply (signingInit_done msg w node Hd) |].
  unfold ctx. cbn [stellar_activeTx header_tx sha256_ctx].
  unfold header_bytes, header_before_memo.
  rewrite (firstn_all2 (n := 32) (sha256_Raw (passphrase msg))) by (rewrite Hlen; lia).
  rewrite <- !app_assoc.
  rewrite (app_assoc (sha256_Raw (passphrase msg)) [0; 0; 0; 2]).
  rewrite firstn_app.
  rewrite firstn_all2 by (rewrite length_app, Hlen; cbn [List.length]; lia).
  rewrite length_app, Hlen. cbn [List.length Nat.add Nat.sub firstn].
  apply app_nil_r.
Qed.

(** C7: the session that the header step leaves, accumulator included, is
    the same from any two prior worlds. *)
Theorem signingInit_forgets_prior_state (msg : StellarSignTx.t) (w1 w2 : World) :
  outcome_map session (stellar_signingInit msg w1)
  = outcome_map session (stellar_signingInit msg w2)
  /\ outcome_map ctx (stellar_signingInit msg w1)
     = outcome_map ctx (stellar_signingInit msg w2).
Proof.
  destruct (stellar_deriveNode (StellarSignTx.index msg)) as [node|] eqn:Hd.
  - rewrite (signingInit_done msg w1 node Hd), (signingInit_done msg w2 node Hd).
    split; reflexivity.
  - rewrite (signingInit_undefined msg w1 Hd), (signingInit_undefined msg w2 Hd).
    split; reflexivity.
Qed.

Lemma memo_payload_unknown (msg : StellarSignTx.t) :
  ~ 0 <= StellarSignTx.memo_type msg <= 4 -> memo_payload msg = [].
Proof.
  intros H. unfold memo_payload.
  destruct (StellarSignTx.memo_type msg) as [|[[p|p|]|[p|[p|p|]|]|]|p];
    try reflexivity; lia.
Qed.

(** C10: for a memo type outside 0..4 the header step, when the key of the
    account derives, completes without a failure message and hashes the
    memo type alone between the time bounds and the operation count. *)
Theorem signingInit_unknown_memo
    (msg : StellarSignTx.t) (w : World) (node : HDNode) :
  ~ 0 <= StellarSignTx.memo_type msg <= 4 ->
  stellar_deriveNode (StellarSignTx.index msg) = Some node ->
  exists w',
    stellar_signingInit msg w = Done w'
    /\ ctx w'
       = header_before_memo (sha256_Raw (passphrase msg)) (derived_pubkey node) msg
           ++ be32 (StellarSignTx.memo_type msg)
           ++ be32 (StellarSignTx.num_operations msg)
    /\ trace w' = trace w
    /\ stellar_signing w' = true.
Proof.
  intros Hmemo Hd. eexists. split; [apply (signingInit_done msg w node Hd) |].
  unfold ctx. cbn [stellar_activeTx stellar_signing trace header_tx sha256_ctx].
  unfold header_bytes. rewrite (memo_payload_unknown msg Hmemo).
  repeat split; reflexivity.
Qed.

End HeaderStep.

Example network_kind_examples :
  map network_kind
      [ example_header 1 0;
        example_header_on "Test SDF Network ; September 2015" 1 0;
        example_header_on "Public Global Stellar Network ; September 2015 " 1 0;
        example_header_on "" 1 0 ]
  = [1; 2; 3; 3].
Proof. vm_compute. reflexivity. Qed.

(** The scenario of one CreateAccount of 5 XLM under the public network:
    header, source flag, type, destination, amount and the closing zero
    word, with the operation counted. *)
Example create_account_scenario :
  let w := stellar_addOperation example_create_account (started_world 1 true) in
  ctx w
  = header_bytes (sha256_Raw (Primitives := test_primitives)
                    (C.chars "Public Global Stellar Network ; September 2015"))
                 (repeat 9 32) (example_header 1 0)
    ++ be32 0 ++ be32 0 ++ address_bytes (repeat 5 32) ++ be64 50000000 ++ be32 0
  /\ network_type (stellar_activeTx w) = 1
  /\ confirmed w = 1
  /\ stellar_signing w = true.
Proof. vm_compute. repeat split; reflexivity. Qed.

Lemma test_digest_length (m : list Z) :
  List.length (sha256_Raw (Primitives := test_primitives) m) = 32%nat.
Proof.
  cbn [sha256_Raw test_primitives]. rewrite length_firstn, length_app, repeat_length. lia.
Qed.

Lemma test_signature_length (m sk pk : list Z) :
  List.length (ed25519_sign (Primitives := test_primitives) m sk pk) = 64%nat.
Proof.
  cbn [ed25519_sign test_primitives].
  rewrite length_firstn, !length_app, repeat_length. lia.
Qed.

Lemma signingInit_first_36_bytes_witness :
  (forall m, List.length (sha256_Raw (Primitives := test_primitives) m) = 32%nat)
  /\ stellar_deriveNode (P := test_primitives) (StellarSignTx.index (example_header 1 0))
  = Some (repeat 7 32, 1 :: repeat 9 32)
  /\ exists w',
      stellar_signingInit (P := test_primitives) (example_header 1 0) (idle_world true)
      = Done w'
      /\ firstn 36 (ctx w')
         = sha256_Raw (Primitives := test_primitives) (passphrase (example_header 1 0))
             ++ [0; 0; 0; 2].
Proof.
  split; [exact test_digest_length |]. split; [reflexivity |].
  apply (signingInit_first_36_bytes (P := test_primitives)
           (example_header 1 0) (idle_world true) (repeat 7 32, 1 :: repeat 9 32)
           test_digest_length).
  reflexivity.
Defined.

Lemma signingInit_unknown_memo_witness :
  ~ 0 <= StellarSignTx.memo_type (example_header 1 7) <= 4
  /\ exists w',
      stellar_signingInit (P := test_primitives) (example_header 1 7) (idle_world true)
      = Done w'
      /\ ctx w'
         = header_before_memo
             (sha256_Raw (Primitives := test_primitives) (passphrase (example_header 1 7)))
             (derived_pubkey (P := test_primitives) (repeat 7 32, 1 :: repeat 9 32))
             (example_header 1 7)
             ++ be32 7 ++ be32 1
      /\ trace w' = []
      /\ stellar_signing w' = true.
Proof.
  assert (H : ~ 0 <= StellarSignTx.memo_type (example_header 1 7) <= 4)
    by (cbn [StellarSignTx.memo_type example_header example_header_on]; lia).
  split; [exact H |].
  apply (signingInit_unknown_memo (P := test_primitives)
           (example_header 1 7) (idle_world true) (repeat 7 32, 1 :: repeat 9 32) H).
  reflexivity.
Defined.

(** ** Abort *)

(** C9: [stellar_signingAbort] runs from any world, leaves the session
    inactive and sends [Failure_ActionCancelled]; a second abort leaves the
    session as the first one left it. *)
Theorem signingAbort_idempotent (w : World) :
  stellar_signing (stellar_signingAbort w) = false
  /\ trace (stellar_signingAbort w)
     = trace w ++ [SendFailure FailureType_Failure_ActionCancelled None; LayoutHome]
  /\ session (stellar_signingAbort (stellar_signingAbort w))
     = session (stellar_signingAbort w)
  /\ stellar_signing (stellar_signingAbort (stellar_signingAbort w)) = false.
Proof.
  world. rewrite <- app_assoc. repeat split; reflexivity.
Qed.

(** ** Finalization *)

Section Finalization.

Context {P : Primitives}.

Lemma getSignature_done (w : World) (node : HDNode) :
  stellar_deriveNode (account_index (stellar_activeTx w)) = Some node ->
  stellar_getSignatureForActiveTx w
  = Done (firstn 64
            (ed25519_sign (firstn 32 (sha256_Raw (ctx w)))
               (private_key node) (tl (public_key node))), finalized w).
Proof.
  intros H. unfold stellar_getSignatureForActiveTx. rewrite H. reflexivity.
Qed.

(** C3, amended: when the key of the account derives, finalization returns
    the 64-byte Ed25519 signature, under the derived key pair, of the
    32-byte SHA-256 digest of exactly the bytes accumulated before the
    call, and it does not reset the session: the flag [stellar_signing] is
    after the call what it was before it. *)
Theorem getSignature_signs_digest (w : World) (node : HDNode) :
  (forall m, List.length (sha256_Raw m) = 32%nat) ->
  (forall m sk pk, List.length (ed25519_sign m sk pk) = 64%nat) ->
  stellar_deriveNode (account_index (stellar_activeTx w)) = Some node ->
  let digest := sha256_Raw (ctx w) in
  let signature := ed25519_sign digest (private_key node) (tl (public_key node)) in
  exists w',
    stellar_getSignatureForActiveTx w = Done (signature, w')
    /\ List.length digest = 32%nat
    /\ List.length signature = 64%nat
    /\ stellar_signing w' = stellar_signing w.
Proof.
  intros Hsha Hsig Hd digest signature. exists (finalized w).
  rewrite (getSignature_done w node Hd).
  rewrite (firstn_all2 (n := 32) (sha256_Raw (ctx w))) by (rewrite Hsha; lia).
  rewrite firstn_all2 by (rewrite Hsig; lia).
  repeat split; [apply Hsha | apply Hsig].
Qed.

End Finalization.

Lemma getSignature_signs_digest_witness :
  let w := stellar_addOperation example_create_account (started_world 1 true) in
  let node : HDNode (Primitives := test_primitives) := (repeat 7 32, 1 :: repeat 9 32) in
  (forall m, List.length (sha256_Raw (Primitives := test_primitives) m) = 32%nat)
  /\ (forall m sk pk,
         List.length (ed25519_sign (Primitives := test_primitives) m sk pk) = 64%nat)
  /\ stellar_deriveNode (P := test_primitives) (account_index (stellar_activeTx w))
     = Some node
  /\ exists w',
      stellar_getSignatureForActiveTx (P := test_primitives) w
      = Done (ed25519_sign (Primitives := test_primitives)
                (sha256_Raw (Primitives := test_primitives) (ctx w))
                (private_key node) (tl (public_key node)), w')
      /\ List.length (sha256_Raw (Primitives := test_primitives) (ctx w)) = 32%nat
      /\ List.length
           (ed25519_sign (Primitives := test_primitives)
              (sha256_Raw (Primitives := test_primitives) (ctx w))
              (private_key node) (tl (public_key node))) = 64%nat
      /\ stellar_signing w' = stellar_signing w.
Proof.
  intros w node.
  split; [exact test_digest_length |]. split; [exact test_signature_length |].
  split; [reflexivity |].
  apply (getSignature_signs_digest (P := test_primitives) w node
           test_digest_length test_signature_length).
  reflexivity.
Defined.

(** C3 as stated fails: after the header and the one declared operation,
    with [confirmed = operations], finalization returns a signature and the
    session is still active. *)
Lemma finalization_keeps_session_counterexample :
  let w := stellar_addOperation example_create_account (started_world 1 true) in
  confirmed w = operations w
  /\ ~ spec_finalize_resets (P := test_primitives) w.
Proof.
  cbv zeta. split; [vm_compute; reflexivity |].
  intros (signature & w' & H & Hs).
  rewrite (getSignature_done (P := test_primitives) _ (repeat 7 32, 1 :: repeat 9 32))
    in H by reflexivity.
  injection H as _ <-. vm_compute in Hs. discriminate Hs.
Qed.

(** ** Derivation failure *)

(** C4, on a device whose root node cannot be read: [stellar_deriveNode]
    returns the null pointer, and the callers read through it. No failure is
    sent and the session is not closed; the call has no defined result. *)
Theorem locked_device_derivation_unchecked (msg : StellarSignTx.t) (w : World) :
  stellar_deriveNode (P := locked_device) (StellarSignTx.index msg) = None
  /\ stellar_getPubkeyAtIndex (P := locked_device) (StellarSignTx.index msg)
       (repeat 0 32) 32 = Undefined
  /\ stellar_signingInit (P := locked_device) msg w = Undefined
  /\ stellar_getSignatureForActiveTx (P := locked_device) w = Undefined.
Proof.
  repeat split; reflexivity.
Qed.

(** ** Operations of other types *)

Lemma addOperation_body_other_type (msg : StellarTxOpAck.t) (w : World) :
  StellarTxOpAck.type msg <> 0 ->
  StellarTxOpAck.type msg <> 1 ->
  stellar_addOperation_body msg w
  = absorb (be32 (StellarTxOpAck.type msg) ++ trailer w) w.
Proof.
  intros H0 H1. unfold stellar_addOperation_body, trailer. cbv zeta.
  destruct (Z.eqb_spec (StellarTxOpAck.type msg) 0) as [E|_]; [contradiction |].
  destruct (Z.eqb_spec (StellarTxOpAck.type msg) 1) as [E|_]; [contradiction |].
  autorewrite with hashupdate.
  change (stellar_allOperationsConfirmed (absorb (be32 (StellarTxOpAck.type msg)) w))
    with (confirmed w =? operations w).
  destruct (confirmed w =? operations w).
  - apply absorb_absorb.
  - rewrite app_nil_r. reflexivity.
Qed.

(** C8, amended: an operation of a type other than 0 and 1, in an active
    session.  Without a source account the call appends the 4-byte false
    flag and the 4-byte big-endian type, asks the user nothing, counts
    nothing and sends nothing.  With a source account the user is first
    asked to approve it: on approval the source address and the type are
    appended; on refusal nothing is appended and the session is aborted
    with [Failure_ActionCancelled].  In the two cases that hash, four zero
    bytes follow when [confirmed = operations]. *)
Theorem addOperation_other_type (msg : StellarTxOpAck.t) (w : World) :
  stellar_signing w = true ->
  StellarTxOpAck.type msg <> 0 ->
  StellarTxOpAck.type msg <> 1 ->
  let w' := stellar_addOperation msg w in
  let source := StellarTxOpAck.source_account msg in
  let ask := Dialog (OpSourceAccount (stellar_lineBreakAddress (bytes source))) in
  confirmed w' = confirmed w
  /\ (size source = 0%nat ->
      ctx w' = ctx w ++ be32 0 ++ be32 (StellarTxOpAck.type msg) ++ trailer w
      /\ trace w' = trace w
      /\ stellar_signing w' = true)
  /\ (size source <> 0%nat -> buttons w 0%nat = true ->
      ctx w' = ctx w ++ address_bytes (bytes source)
                 ++ be32 (StellarTxOpAck.type msg) ++ trailer w
      /\ trace w' = trace w ++ [ask; ButtonRequest true]
      /\ stellar_signing w' = true)
  /\ (size source <> 0%nat -> buttons w 0%nat = false ->
      ctx w' = ctx w
      /\ trace w' = trace w ++ [ask; ButtonRequest false;
                                SendFailure FailureType_Failure_ActionCancelled None;
                                LayoutHome]
      /\ stellar_signing w' = false).
Proof.
  intros Hs H0 H1 w' source ask. unfold w', stellar_addOperation.
  rewrite Hs. cbn [negb]. fold source.
  destruct (Nat.ltb_spec 0 (size source)) as [Hsize|Hsize].
  - cbv zeta. world. destruct (buttons w 0%nat); cbn [negb].
    + rewrite addOperation_body_other_type by assumption.
      autorewrite with hashupdate. world. rewrite <- ?app_assoc.
      repeat split; solve [reflexivity | assumption | lia | congruence].
    + world. rewrite <- ?app_assoc.
      repeat split; solve [reflexivity | assumption | lia | congruence].
  - rewrite addOperation_body_other_type by assumption.
    autorewrite with hashupdate. world.
    repeat split; solve [reflexivity | assumption | lia | congruence].
Qed.

Lemma addOperation_other_type_witness :
  let msg := example_other_operation in
  let w := started_world 1 false in
  let w' := stellar_addOperation msg w in
  let source := StellarTxOpAck.source_account msg in
  let ask := Dialog (OpSourceAccount (stellar_lineBreakAddress (bytes source))) in
  stellar_signing w = true
  /\ StellarTxOpAck.type msg <> 0
  /\ StellarTxOpAck.type msg <> 1
  /\ confirmed w' = confirmed w
  /\ (size source <> 0%nat -> buttons w 0%nat = false ->
      ctx w' = ctx w
      /\ trace w' = trace w ++ [ask; ButtonRequest false;
                                SendFailure FailureType_Failure_ActionCancelled None;
                                LayoutHome]
      /\ stellar_signing w' = false).
Proof.
  intros msg w w' source ask.
  assert (Hs : stellar_signing w = true) by reflexivity.
  assert (H0 : StellarTxOpAck.type msg <> 0) by (cbn; lia).
  assert (H1 : StellarTxOpAck.type msg <> 1) by (cbn; lia).
  repeat (split; [assumption |]).
  pose proof (addOperation_other_type msg w Hs H0 H1) as H.
  cbv zeta in H. split; [apply H |]. apply H.
Defined.

(** C8 as stated fails: an operation of type 5 that names a source account,
    in an active session, with a user who refuses the source account:
    nothing is appended, a confirmation was requested and
    [Failure_ActionCancelled] is sent. *)
Lemma other_type_refused_source_counterexample :
  stellar_signing (started_world 1 false) = true
  /\ StellarTxOpAck.type example_other_operation = 5
  /\ ~ spec_other_type_operation example_other_operation (started_world 1 false).
Proof.
  split; [reflexivity |]. split; [reflexivity |].
  intros (_ & _ & _ & H). vm_compute in H. discriminate H.
Qed.

(** ** A session depends on its own messages only *)

Lemma same_view_with_tx (f : StellarTransaction -> StellarTransaction) (w1 w2 : World) :
  same_view w1 w2 -> same_view (with_tx f w1) (with_tx f w2).
Proof.
  unfold same_view, session. cbn [with_tx stellar_signing stellar_activeTx buttons].
  intros [H Hb]. injection H as -> ->. split; [reflexivity | exact Hb].
Qed.

Lemma same_view_emit (e1 e2 : Event) (w1 w2 : World) :
  same_view w1 w2 -> same_view (emit e1 w1) (emit e2 w2).
Proof. exact (fun H => H). Qed.

Lemma same_view_set_signing (b : bool) (w1 w2 : World) :
  same_view w1 w2 -> same_view (set_signing b w1) (set_signing b w2).
Proof.
  unfold same_view, session. cbn [set_signing stellar_signing stellar_activeTx buttons].
  intros [H Hb]. injection H as _ ->. split; [reflexivity | exact Hb].
Qed.

Lemma same_view_protectButton (w1 w2 : World) :
  same_view w1 w2 ->
  fst (protectButton w1) = fst (protectButton w2)
  /\ same_view (snd (protectButton w1)) (snd (protectButton w2)).
Proof.
  unfold same_view, session.
  cbn [protectButton fst snd stellar_signing stellar_activeTx buttons].
  intros [H Hb]. split; [apply Hb |]. split; [exact H |]. intros n. apply Hb.
Qed.

Lemma same_view_abort (w1 w2 : World) :
  same_view w1 w2 -> same_view (stellar_signingAbort w1) (stellar_signingAbort w2).
Proof.
  intros H. unfold stellar_signingAbort, fsm_sendFailure, layoutHome.
  do 2 apply same_view_emit. apply same_view_set_signing. exact H.
Qed.

Lemma same_view_confirm (w1 w2 : World) :
  same_view w1 w2 ->
  same_view
    (let (ok, w) := protectButton w1 in
     if negb ok then stellar_signingAbort w
     else with_tx (fun tx => set_confirmed_operations (confirmed_operations tx + 1) tx) w)
    (let (ok, w) := protectButton w2 in
     if negb ok then stellar_signingAbort w
     else with_tx (fun tx => set_confirmed_operations (confirmed_operations tx + 1) tx) w).
Proof.
  intros H. destruct (same_view_protectButton w1 w2 H) as [Hok Hw].
  destruct (protectButton w1) as [ok1 w1'], (protectButton w2) as [ok2 w2'].
  cbn [fst snd] in Hok, Hw. subst ok2.
  destruct ok1; cbn [negb]; [apply same_view_with_tx | apply same_view_abort]; exact Hw.
Qed.

Lemma same_view_confirmCreateAccountOp (msg : StellarTxOpAck.t) (w1 w2 : World) :
  same_view w1 w2 ->
  same_view (stellar_confirmCreateAccountOp msg w1) (stellar_confirmCreateAccountOp msg w2).
Proof.
  intros H. unfold stellar_confirmCreateAccountOp. cbv zeta.
  apply same_view_confirm, same_view_emit.
  autorewrite with hashupdate. do 2 apply same_view_with_tx. exact H.
Qed.

Lemma same_view_confirmPaymentOp (msg : StellarTxOpAck.t) (w1 w2 : World) :
  same_view w1 w2 ->
  same_view (stellar_confirmPaymentOp msg w1) (stellar_confirmPaymentOp msg w2).
Proof.
  intros H. unfold stellar_confirmPaymentOp. cbv zeta.
  apply same_view_confirm, same_view_emit.
  autorewrite with hashupdate. apply same_view_with_tx.
  destruct (StellarAssetType.type (StellarTxOpAck.asset msg) =? 0),
    (StellarAssetType.type (StellarTxOpAck.asset msg) =? 1),
    (StellarAssetType.type (StellarTxOpAck.asset msg) =? 2);
    cbn [orb]; autorewrite with hashupdate;
    repeat apply same_view_with_tx; exact H.
Qed.

Lemma same_view_addOperation_body (msg : StellarTxOpAck.t) (w1 w2 : World) :
  same_view w1 w2 ->
  same_view (stellar_addOperation_body msg w1) (stellar_addOperation_body msg w2).
Proof.
  intros H. unfold stellar_addOperation_body. cbv zeta.
  assert (H3 : same_view
                 (if StellarTxOpAck.type msg =? 1
                  then stellar_confirmPaymentOp msg
                         (if StellarTxOpAck.type msg =? 0
                          then stellar_confirmCreateAccountOp msg
                                 (stellar_hashupdate_uint32 (StellarTxOpAck.type msg) w1)
                          else stellar_hashupdate_uint32 (StellarTxOpAck.type msg) w1)
                  else if StellarTxOpAck.type msg =? 0
                       then stellar_confirmCreateAccountOp msg
                              (stellar_hashupdate_uint32 (StellarTxOpAck.type msg) w1)
                       else stellar_hashupdate_uint32 (StellarTxOpAck.type msg) w1)
                 (if StellarTxOpAck.type msg =? 1
                  then stellar_confirmPaymentOp msg
                         (if StellarTxOpAck.type msg =? 0
                          then stellar_confirmCreateAccountOp msg
                                 (stellar_hashupdate_uint32 (StellarTxOpAck.type msg) w2)
                          else stellar_hashupdate_uint32 (StellarTxOpAck.type msg) w2)
                  else if StellarTxOpAck.type msg =? 0
                       then stellar_confirmCreateAccountOp msg
                              (stellar_hashupdate_uint32 (StellarTxOpAck.type msg) w2)
                       else stellar_hashupdate_uint32 (StellarTxOpAck.type msg) w2)).
  { autorewrite with hashupdate.
    destruct (StellarTxOpAck.type msg =? 1), (StellarTxOpAck.type msg =? 0);
      repeat first [apply same_view_confirmPaymentOp
                   | apply same_view_confirmCreateAccountOp
                   | apply same_view_with_tx]; exact H. }
  set (a := if StellarTxOpAck.type msg =? 1 then _ else _) in *.
  set (b := if StellarTxOpAck.type msg =? 1 then _ else _) in H3 |- *.
  assert (E : stellar_allOperationsConfirmed a = stellar_allOperationsConfirmed b).
  { unfold stellar_allOperationsConfirmed. destruct H3 as [Hs _].
    unfold session in Hs. injection Hs as _ ->. reflexivity. }
  rewrite E. destruct (stellar_allOperationsConfirmed b); [| exact H3].
  autorewrite with hashupdate. apply same_view_with_tx. exact H3.
Qed.

Lemma same_view_addOperation (msg : StellarTxOpAck.t) (w1 w2 : World) :
  same_view w1 w2 ->
  same_view (stellar_addOperation msg w1) (stellar_addOperation msg w2).
Proof.
  intros H. unfold stellar_addOperation. cbv zeta.
  assert (Es : stellar_signing w1 = stellar_signing w2).
  { destruct H as [Hs _]. unfold session in Hs. injection Hs as -> _. reflexivity. }
  rewrite Es. destruct (stellar_signing w2); cbn [negb].
  - destruct (0 <? size (StellarTxOpAck.source_account msg))%nat.
    + set (ask := stellar_layoutTransactionDialog _).
      assert (Hd : same_view (ask w1) (ask w2)) by (apply same_view_emit; exact H).
      destruct (same_view_protectButton _ _ Hd) as [Hok Hw].
      destruct (protectButton (ask w1)) as [ok1 w1'],
               (protectButton (ask w2)) as [ok2 w2'].
      cbn [fst snd] in Hok, Hw. subst ok2.
      destruct ok1; cbn [negb]; [| apply same_view_abort; exact Hw].
      apply same_view_addOperation_body. autorewrite with hashupdate.
      apply same_view_with_tx. exact Hw.
    + apply same_view_addOperation_body. autorewrite with hashupdate.
      apply same_view_with_tx. exact H.
  - do 2 apply same_view_emit. exact H.
Qed.

Lemma same_view_run_operations (ops : list StellarTxOpAck.t) :
  forall w1 w2 : World,
    same_view w1 w2 -> same_view (run_operations ops w1) (run_operations ops w2).
Proof.
  induction ops as [|msg ops IH]; intros w1 w2 H; [exact H |].
  apply (IH _ _ (same_view_addOperation msg w1 w2 H)).
Qed.

(** Two sessions started by the same header and fed the same operations,
    with a user who gives the same answers, end in the same session,
    whatever the two worlds held before. *)
Corollary session_run_forgets_prior_state {P : Primitives}
    (msg : StellarSignTx.t) (ops : list StellarTxOpAck.t) (w1 w2 : World) :
  (forall n, buttons w1 n = buttons w2 n) ->
  outcome_map (fun w => session (run_operations ops w)) (stellar_signingInit msg w1)
  = outcome_map (fun w => session (run_operations ops w)) (stellar_signingInit msg w2).
Proof.
  intros Hb. destruct (stellar_deriveNode (StellarSignTx.index msg)) as [node|] eqn:Hd.
  - rewrite (signingInit_done msg w1 node Hd), (signingInit_done msg w2 node Hd).
    cbn [outcome_map]. f_equal. apply same_view_run_operations.
    split; [reflexivity | exact Hb].
  - rewrite (signingInit_undefined msg w1 Hd), (signingInit_undefined msg w2 Hd).
    reflexivity.
Qed.

(** * Part III: further properties of the code *)

(** ** More on the hash builder *)

Lemma be_value_acc (l : list Z) :
  forall acc,
    fold_left (fun acc b => acc * 256 + b) l acc
    = acc * 256 ^ Z.of_nat (List.length l) + be_value l.
Proof.
  unfold be_value. induction l as [|b l IH]; intros acc.
  - cbn [fold_left List.length]. change (256 ^ Z.of_nat 0) with 1. lia.
  - cbn [fold_left List.length]. rewrite IH, (IH (0 * 256 + b)).
    rewrite Nat2Z.inj_succ, Z.pow_succ_r by lia. ring.
Qed.

Lemma be_value_cons (b : Z) (l : list Z) :
  be_value (b :: l) = b * 256 ^ Z.of_nat (List.length l) + be_value l.
Proof.
  unfold be_value at 1. cbn [fold_left]. rewrite be_value_acc. ring.
Qed.

Lemma byte_of_shift (v k : Z) :
  0 <= k -> Z.land (Z.shiftr v k) 0xFF = (v / 2 ^ k) mod 256.
Proof.
  intros Hk. change 0xFF with (Z.ones 8).
  rewrite Z.land_ones, Z.shiftr_div_pow2 by lia. reflexivity.
Qed.

Lemma low_byte (v : Z) : Z.land v 0xFF = v mod 256.
Proof. change 0xFF with (Z.ones 8). rewrite Z.land_ones by lia. reflexivity. Qed.

Lemma mod_split (v m : Z) :
  0 < m -> v mod (256 * m) = (v / 256) mod m * 256 + v mod 256.
Proof.
  intros Hm. rewrite Z.rem_mul_r by lia. ring.
Qed.

Lemma be_value_be32 (v : Z) : be_value (be32 v) = v mod 2 ^ 32.
Proof.
  unfold be32. rewrite !be_value_cons. unfold be_value.
  cbn [fold_left List.length Z.of_nat Pos.of_succ_nat Pos.succ].
  rewrite !byte_of_shift, low_byte by lia.
  change (2 ^ 32) with (256 * (256 * (256 * 256))).
  rewrite !mod_split by lia. rewrite !Z.div_div by lia.
  change (256 * (256 * 256)) with 16777216. change (2 ^ 24) with 16777216.
  change (256 * 256) with 65536. change (2 ^ 16) with 65536.
  change (2 ^ 8) with 256. ring.
Qed.

Lemma be32_bytes (v : Z) : C.is_bytes (be32 v) = true.
Proof.
  unfold be32, C.is_bytes, C.is_uint8. cbn [forallb].
  rewrite !byte_of_shift, low_byte by lia.
  repeat match goal with
         | |- context [?x mod 256] =>
             let H := fresh in pose proof (Z.mod_pos_bound x 256 ltac:(lia)) as H;
             generalize dependent (x mod 256); intros
         end.
  repeat (apply andb_true_intro; split); lia.
Qed.

Lemma be64_split (v : Z) : be64 v = be32 (Z.shiftr v 32) ++ be32 v.
Proof.
  unfold be64, be32. cbn [app]. rewrite !Z.shiftr_shiftr by lia. reflexivity.
Qed.

Lemma be_value_app (l1 l2 : list Z) :
  be_value (l1 ++ l2) = be_value l1 * 256 ^ Z.of_nat (List.length l2) + be_value l2.
Proof.
  unfold be_value at 1. rewrite fold_left_app. fold (be_value l1). apply be_value_acc.
Qed.

Lemma be_value_be64 (v : Z) : be_value (be64 v) = v mod 2 ^ 64.
Proof.
  rewrite be64_split, be_value_app, !be_value_be32.
  change (256 ^ Z.of_nat (List.length (be32 v))) with (2 ^ 32).
  rewrite Z.shiftr_div_pow2 by lia.
  change (2 ^ 64) with (2 ^ 32 * 2 ^ 32). rewrite Z.rem_mul_r by lia. ring.
Qed.

Lemma is_bytes_app (l1 l2 : list Z) :
  C.is_bytes (l1 ++ l2) = C.is_bytes l1 && C.is_bytes l2.
Proof. apply forallb_app. Qed.

Lemma be64_bytes (v : Z) : C.is_bytes (be64 v) = true.
Proof. rewrite be64_split, is_bytes_app, !be32_bytes. reflexivity. Qed.

(** X1: [stellar_hashupdate_uint32] appends four bytes to the accumulator
    and changes nothing else; read most significant byte first they are the
    value modulo 2^32. *)
Theorem hashupdate_uint32_big_endian (v : Z) (w : World) :
  stellar_hashupdate_uint32 v w = absorb (be32 v) w
  /\ List.length (be32 v) = 4%nat
  /\ C.is_bytes (be32 v) = true
  /\ be_value (be32 v) = v mod 2 ^ 32.
Proof.
  split; [apply hashupdate_uint32_absorb |]. split; [reflexivity |].
  split; [apply be32_bytes | apply be_value_be32].
Qed.

(** X2: [stellar_hashupdate_uint64] appends eight bytes to the accumulator
    and changes nothing else; read most significant byte first they are the
    value modulo 2^64. *)
Theorem hashupdate_uint64_big_endian (v : Z) (w : World) :
  stellar_hashupdate_uint64 v w = absorb (be64 v) w
  /\ List.length (be64 v) = 8%nat
  /\ C.is_bytes (be64 v) = true
  /\ be_value (be64 v) = v mod 2 ^ 64.
Proof.
  split; [apply hashupdate_uint64_absorb |]. split; [reflexivity |].
  split; [apply be64_bytes | apply be_value_be64].
Qed.

(** X3: a 32-bit value hashed as a zero word followed by the value, the way
    the header step hashes a time bound, leaves the accumulator as hashing
    it as one 64-bit value does. *)
Theorem hashupdate_uint32_pair_is_uint64 (v : Z) (w : World) :
  0 <= v < 2 ^ 32 ->
  stellar_hashupdate_uint32 v (stellar_hashupdate_uint32 0 w)
  = stellar_hashupdate_uint64 v w.
Proof.
  intros Hv. autorewrite with hashupdate. rewrite absorb_absorb. f_equal.
  rewrite be64_split. f_equal.
  rewrite Z.shiftr_div_pow2, Z.div_small by lia. reflexivity.
Qed.

Lemma hashupdate_uint32_pair_is_uint64_witness :
  0 <= 1500000000 < 2 ^ 32
  /\ stellar_hashupdate_uint32 1500000000 (stellar_hashupdate_uint32 0 (idle_world true))
     = stellar_hashupdate_uint64 1500000000 (idle_world true).
Proof.
  assert (H : 0 <= 1500000000 < 2 ^ 32) by lia.
  split; [exact H |].
  apply (hashupdate_uint32_pair_is_uint64 1500000000 (idle_world true) H).
Defined.

(** X4: [stellar_hashupdate_string] appends the length as four big-endian
    bytes and then the characters, with no padding: for a length within
    the buffer and below 2^32 the accumulator grows by [4 + len] bytes, the
    first four of which read back as [len]. *)
Theorem hashupdate_string_unpadded (data : list Z) (len : nat) (w : World) :
  (len <= List.length data)%nat ->
  Z.of_nat len < 2 ^ 32 ->
  stellar_hashupdate_string data len w
  = absorb (be32 (Z.of_nat len) ++ firstn len data) w
  /\ List.length (be32 (Z.of_nat len) ++ firstn len data) = (4 + len)%nat
  /\ be_value (be32 (Z.of_nat len)) = Z.of_nat len.
Proof.
  intros Hlen Hrange. split; [apply hashupdate_string_absorb |]. split.
  - rewrite length_app, length_firstn. cbn [List.length be32]. lia.
  - rewrite be_value_be32. apply Z.mod_small. lia.
Qed.

Lemma hashupdate_string_unpadded_witness :
  (5 <= List.length (C.chars "hello"))%nat
  /\ Z.of_nat 5 < 2 ^ 32
  /\ stellar_hashupdate_string (C.chars "hello") 5 (idle_world true)
     = absorb (be32 (Z.of_nat 5) ++ firstn 5 (C.chars "hello")) (idle_world true)
  /\ List.length (be32 (Z.of_nat 5) ++ firstn 5 (C.chars "hello")) = (4 + 5)%nat
  /\ be_value (be32 (Z.of_nat 5)) = Z.of_nat 5.
Proof.
  assert (H1 : (5 <= List.length (C.chars "hello"))%nat) by (cbn; lia).
  assert (H2 : Z.of_nat 5 < 2 ^ 32) by lia.
  split; [exact H1 |]. split; [exact H2 |].
  apply (hashupdate_string_unpadded (C.chars "hello") 5 (idle_world true) H1 H2).
Defined.

(** X5: [stellar_hashupdate_address] appends 36 bytes for a key of 32
    bytes: the address type, four zero bytes, then the key as it is;
    [stellar_hashupdate_bool] appends the word 1 or the word 0. *)
Theorem hashupdate_address_layout (key : list Z) (b : bool) (w : World) :
  List.length key = 32%nat ->
  stellar_hashupdate_address key w = absorb ([0; 0; 0; 0] ++ key) w
  /\ List.length ([0; 0; 0; 0] ++ key) = 36%nat
  /\ stellar_hashupdate_bool b w = absorb [0; 0; 0; if b then 1 else 0] w.
Proof.
  intros Hlen. split; [| split].
  - rewrite hashupdate_address_absorb. unfold address_bytes.
    rewrite firstn_all2 by lia. reflexivity.
  - rewrite length_app, Hlen. reflexivity.
  - rewrite hashupdate_bool_absorb. destruct b; reflexivity.
Qed.

Lemma hashupdate_address_layout_witness :
  List.length (repeat 5 32) = 32%nat
  /\ stellar_hashupdate_address (repeat 5 32) (idle_world true)
     = absorb ([0; 0; 0; 0] ++ repeat 5 32) (idle_world true)
  /\ List.length ([0; 0; 0; 0] ++ repeat 5 32) = 36%nat
  /\ stellar_hashupdate_bool true (idle_world true)
     = absorb [0; 0; 0; if true then 1 else 0] (idle_world true).
Proof.
  split; [reflexivity |].
  apply (hashupdate_address_layout (repeat 5 32) true (idle_world true)). reflexivity.
Defined.

(** ** More on CRC16 and the address codec *)

Lemma is_bytes_firstn (n : nat) (l : list Z) :
  C.is_bytes l = true -> C.is_bytes (firstn n l) = true.
Proof.
  unfold C.is_bytes. revert l. induction n as [|n IH]; intros [|b l] H; try reflexivity.
  cbn [firstn forallb] in *. apply andb_prop in H as [Hb Hl].
  rewrite Hb, (IH l Hl). reflexivity.
Qed.

(** X6: [stellar_crc16] reads the first [length] bytes of the buffer only,
    and on them it computes the CRC16 of the XMODEM variant (polynomial
    0x1021, register starting at 0, most significant bit first); the result
    is a 16-bit value. *)
Theorem stellar_crc16_prefix (bytes : list Z) (length : nat) :
  (length <= List.length bytes)%nat ->
  C.is_bytes bytes = true ->
  stellar_crc16 bytes length = crc16_xmodem (firstn length bytes)
  /\ 0 <= stellar_crc16 bytes length < 2 ^ 16.
Proof.
  intros Hlen Hbytes.
  assert (E : stellar_crc16 bytes length = crc16_xmodem (firstn length bytes)).
  { pose proof (stellar_crc16_xmodem (firstn length bytes) (skipn length bytes)
                  (is_bytes_firstn length bytes Hbytes)) as H.
    rewrite firstn_skipn, length_firstn, Nat.min_l in H by lia. exact H. }
  split; [exact E |]. rewrite E. apply crc16_xmodem_range.
Qed.

Lemma stellar_crc16_prefix_witness :
  (9 <= List.length (C.chars "123456789abc"))%nat
  /\ C.is_bytes (C.chars "123456789abc") = true
  /\ stellar_crc16 (C.chars "123456789abc") 9
     = crc16_xmodem (firstn 9 (C.chars "123456789abc"))
  /\ 0 <= stellar_crc16 (C.chars "123456789abc") 9 < 2 ^ 16.
Proof.
  assert (H1 : (9 <= List.length (C.chars "123456789abc"))%nat) by (cbn; lia).
  assert (H2 : C.is_bytes (C.chars "123456789abc") = true) by reflexivity.
  split; [exact H1 |]. split; [exact H2 |].
  apply (stellar_crc16_prefix (C.chars "123456789abc") 9 H1 H2).
Defined.

Lemma crc16_shift_small (x : Z) :
  0 <= x < 2 ^ 15 -> crc16_xmodem_shift x = 2 * x.
Proof.
  intros Hx. unfold crc16_xmodem_shift.
  replace (Z.testbit x 15) with false.
  - rewrite Z.shiftl_mul_pow2 by lia. rewrite uint16_small; lia.
  - symmetry. destruct (Z.eq_dec x 0) as [->|Hne]; [apply Z.bits_0 |].
    apply Z.bits_above_log2; [lia |]. apply Z.log2_lt_pow2; lia.
Qed.

Lemma crc16_byte_of_low (x : Z) :
  0 <= x < 256 -> Nat.iter 8 crc16_xmodem_shift x = 256 * x.
Proof.
  intros Hx. cbn [Nat.iter nat_rect].
  do 8 match goal with
       | |- context [crc16_xmodem_shift ?y] =>
           lazymatch y with
           | context [crc16_xmodem_shift] => fail
           | _ => rewrite (crc16_shift_small y) by lia
           end
       end.
  lia.
Qed.

(** X7: the CRC16 of a message followed by its own CRC16, high byte first,
    is zero. *)
Theorem crc16_residue (data : list Z) :
  C.is_bytes data = true ->
  let crc := stellar_crc16 data (List.length data) in
  stellar_crc16 (data ++ [Z.shiftr crc 8; Z.land crc 0xFF]) (List.length data + 2) = 0.
Proof.
  intros Hdata crc.
  assert (Hcrc : crc = crc16_xmodem data).
  { unfold crc. rewrite <- (app_nil_r data) at 1.
    apply stellar_crc16_xmodem, Hdata. }
  pose proof (crc16_xmodem_range data) as Hrange. rewrite <- Hcrc in Hrange.
  assert (Hhi : 0 <= Z.shiftr crc 8 < 256).
  { rewrite Z.shiftr_div_pow2 by lia.
    split; [apply Z.div_pos; lia | apply Z.div_lt_upper_bound; lia]. }
  assert (Hlo : 0 <= Z.land crc 0xFF < 256).
  { rewrite low_byte. apply Z.mod_pos_bound. lia. }
  assert (Hb : C.is_bytes (data ++ [Z.shiftr crc 8; Z.land crc 0xFF]) = true).
  { rewrite is_bytes_app, Hdata. unfold C.is_bytes, C.is_uint8. cbn [forallb].
    repeat (apply andb_true_intro; split); try reflexivity; lia. }
  pose proof (stellar_crc16_xmodem _ [] Hb) as H.
  rewrite app_nil_r, length_app in H. cbn [List.length] in H. rewrite H. clear H.
  unfold crc16_xmodem. rewrite fold_left_app. fold (crc16_xmodem data).
  rewrite <- Hcrc. cbn [fold_left]. unfold crc16_xmodem_byte at 2.
  assert (E : Z.lxor crc (Z.shiftl (Z.shiftr crc 8) 8) = Z.land crc 0xFF).
  { change 0xFF with (Z.ones 8). apply Z.bits_inj'. intros i Hi.
    rewrite Z.lxor_spec, Z.land_spec, Z.shiftl_spec, Z.testbit_ones_nonneg by lia.
    destruct (Z.ltb_spec i 8).
    - rewrite (Z.testbit_neg_r _ (i - 8)) by lia.
      rewrite xorb_false_r, andb_true_r. reflexivity.
    - rewrite Z.shiftr_spec by lia. replace (i - 8 + 8) with i by lia.
      rewrite xorb_nilpotent, andb_false_r. reflexivity. }
  rewrite E, crc16_byte_of_low by lia.
  unfold crc16_xmodem_byte. rewrite Z.shiftl_mul_pow2 by lia.
  change (2 ^ 8) with 256. rewrite (Z.mul_comm (Z.land crc 255) 256).
  rewrite Z.lxor_nilpotent. reflexivity.
Qed.

Lemma crc16_residue_witness :
  C.is_bytes (C.chars "123456789") = true
  /\ stellar_crc16
       (C.chars "123456789"
        ++ [Z.shiftr (stellar_crc16 (C.chars "123456789")
                        (List.length (C.chars "123456789"))) 8;
            Z.land (stellar_crc16 (C.chars "123456789")
                      (List.length (C.chars "123456789"))) 0xFF])
       (List.length (C.chars "123456789") + 2) = 0.
Proof.
  split; [reflexivity |].
  apply (crc16_residue (C.chars "123456789")). reflexivity.
Defined.

Lemma publicAddressAsStr_text (key : list Z) :
  List.length key = 32%nat ->
  C.is_bytes key = true ->
  fst (stellar_publicAddressAsStr key)
  = base32_encode (strkey_payload key) BASE32_ALPHABET_RFC4648.
Proof.
  intros Hlen Hkey. unfold stellar_publicAddressAsStr. cbv zeta.
  change (1 + 32 + 2 - 2)%nat with 33%nat. change (1 + 32 + 2 - 1)%nat with 34%nat.
  change (1 + 32 + 2)%nat with 35%nat.
  rewrite (address_payload key Hlen Hkey). reflexivity.
Qed.

Lemma be_value_range (l : list Z) :
  C.is_bytes l = true -> 0 <= be_value l < 256 ^ Z.of_nat (List.length l).
Proof.
  induction l as [|b l IH]; intros Hl.
  - cbn. lia.
  - unfold C.is_bytes in Hl. cbn [forallb] in Hl. apply andb_prop in Hl as [Hb Hl].
    specialize (IH Hl). rewrite be_value_cons. cbn [List.length].
    rewrite Nat2Z.inj_succ, Z.pow_succ_r by lia. unfold C.is_uint8 in Hb. nia.
Qed.

Lemma strkey_payload_bytes (key : list Z) :
  C.is_bytes key = true -> C.is_bytes (strkey_payload key) = true.
Proof.
  intros Hkey. unfold strkey_payload. cbv zeta.
  pose proof (crc16_xmodem_range (Z.shiftl 6 3 :: key)) as Hr.
  change (C.is_bytes (?a :: ?l)) with (C.is_uint8 a && C.is_bytes l).
  rewrite is_bytes_app, Hkey. unfold C.is_bytes, C.is_uint8. cbn [forallb].
  assert (0 <= crc16_xmodem (Z.shiftl 6 3 :: key) mod 256 < 256)
    by (apply Z.mod_pos_bound; lia).
  assert (0 <= crc16_xmodem (Z.shiftl 6 3 :: key) / 256 < 256)
    by (split; [apply Z.div_pos; lia | apply Z.div_lt_upper_bound; lia]).
  repeat (apply andb_true_intro; split); try reflexivity; lia.
Qed.

(** X8: the address of every 32-byte key starts with the letter G. *)
Theorem publicAddress_starts_with_G (key : list Z) :
  List.length key = 32%nat ->
  C.is_bytes key = true ->
  String.get 0 (fst (stellar_publicAddressAsStr key)) = Some "G"%char.
Proof.
  intros Hlen Hkey. rewrite (publicAddressAsStr_text key Hlen Hkey).
  unfold base32_encode. rewrite strkey_payload_length, Hlen.
  change (base32_encoded_length (32 + 3)) with 56%nat.
  change (5 * Z.of_nat 56 - 8 * Z.of_nat (32 + 3)) with 0.
  rewrite Z.shiftl_0_r. cbn [seq map string_of_list_ascii String.get].
  change (5 * Z.of_nat (56 - 1 - 0)) with 275.
  assert (E : Z.land (Z.shiftr (be_value (strkey_payload key)) 275) 31 = 6).
  { unfold strkey_payload. cbv zeta. rewrite be_value_cons.
    set (tail := key ++ _).
    assert (Ht : 0 <= be_value tail < 256 ^ 34).
    { pose proof (be_value_range tail) as H.
      replace (Z.of_nat (List.length tail)) with 34 in H
        by (unfold tail; rewrite length_app, Hlen; reflexivity).
      apply H. pose proof (strkey_payload_bytes key Hkey) as Hp.
      unfold strkey_payload in Hp. cbv zeta in Hp. fold tail in Hp.
      unfold C.is_bytes in *. cbn [forallb] in Hp.
      apply andb_prop in Hp as [_ Hp]. exact Hp. }
    replace (Z.of_nat (List.length tail)) with 34
      by (unfold tail; rewrite length_app, Hlen; reflexivity).
    change (Z.shiftl 6 3) with 48. rewrite Z.shiftr_div_pow2 by lia.
    replace ((48 * 256 ^ 34 + be_value tail) / 2 ^ 275) with 6; [reflexivity |].
    assert (Hm : 2 ^ 275 = 8 * 256 ^ 34) by reflexivity.
    rewrite Hm. clear Hm. generalize dependent (256 ^ 34). intros m Htm.
    apply Z.div_unique with (r := be_value tail); lia. }
  rewrite E. reflexivity.
Qed.

Lemma publicAddress_starts_with_G_witness :
  List.length (repeat 255 32) = 32%nat
  /\ C.is_bytes (repeat 255 32) = true
  /\ String.get 0 (fst (stellar_publicAddressAsStr (repeat 255 32))) = Some "G"%char.
Proof.
  split; [reflexivity |]. split; [reflexivity |].
  apply (publicAddress_starts_with_G (repeat 255 32)); reflexivity.
Defined.

Lemma substring_0_append (n m : nat) :
  forall s : string,
    (substring 0 n s ++ substring n m s)%string = substring 0 (n + m) s.
Proof.
  induction n as [|n IH]; intros s.
  - destruct s, m; reflexivity.
  - destruct s as [|c s].
    + destruct m; reflexivity.
    + cbn [substring Nat.add String.append]. rewrite IH. reflexivity.
Qed.

Lemma substring_append (n a b : nat) :
  forall s : string,
    (substring n a s ++ substring (n + a) b s)%string = substring n (a + b) s.
Proof.
  induction n as [|n IH]; intros s.
  - apply substring_0_append.
  - destruct s as [|c s].
    + destruct a, b; reflexivity.
    + cbn [substring Nat.add]. apply IH.
Qed.

Lemma substring_all (s : string) : substring 0 (String.length s) s = s.
Proof.
  induction s as [|c s IH]; [reflexivity |].
  cbn [String.length substring]. rewrite IH. reflexivity.
Qed.

Lemma substring_length (n m : nat) :
  forall s : string,
    (n + m <= String.length s)%nat -> String.length (substring n m s) = m.
Proof.
  induction n as [|n IH]; intros s H.
  - revert s H. induction m as [|m IHm]; intros s H.
    + destruct s; reflexivity.
    + destruct s as [|c s]; cbn [String.length] in H; [lia |].
      cbn [substring String.length]. rewrite IHm by lia. reflexivity.
  - destruct s as [|c s]; cbn [String.length] in H; [lia |].
    cbn [substring]. apply IH. lia.
Qed.

Lemma publicAddressAsStr_length (key : list Z) :
  List.length key = 32%nat ->
  C.is_bytes key = true ->
  String.length (fst (stellar_publicAddressAsStr key)) = 56%nat.
Proof.
  intros Hlen Hkey. rewrite (publicAddressAsStr_text key Hlen Hkey).
  rewrite base32_encode_length, strkey_payload_length, Hlen. reflexivity.
Qed.

(** X9: [stellar_lineBreakAddress] cuts the address of a 32-byte key into
    three rows of 16, 20 and 20 characters that, put end to end, give the
    address back. *)
Theorem lineBreakAddress_rows (key : list Z) :
  List.length key = 32%nat ->
  C.is_bytes key = true ->
  exists r0 r1 r2 : string,
    stellar_lineBreakAddress key = [r0; r1; r2]
    /\ String.length r0 = 16%nat
    /\ String.length r1 = 20%nat
    /\ String.length r2 = 20%nat
    /\ (r0 ++ r1 ++ r2)%string = fst (stellar_publicAddressAsStr key).
Proof.
  intros Hlen Hkey. pose proof (publicAddressAsStr_length key Hlen Hkey) as H56.
  unfold stellar_lineBreakAddress. cbv zeta.
  set (s := fst (stellar_publicAddressAsStr key)) in *.
  exists (substring 0 16 s), (substring 16 20 s), (substring (16 + 20) 20 s).
  split; [reflexivity |].
  repeat split; try (apply substring_length; rewrite H56; cbn; lia).
  rewrite substring_append, substring_0_append.
  change (16 + (20 + 20))%nat with 56%nat. rewrite <- H56. apply substring_all.
Qed.

Lemma lineBreakAddress_rows_witness :
  List.length (repeat 5 32) = 32%nat
  /\ C.is_bytes (repeat 5 32) = true
  /\ exists r0 r1 r2 : string,
      stellar_lineBreakAddress (repeat 5 32) = [r0; r1; r2]
      /\ String.length r0 = 16%nat
      /\ String.length r1 = 20%nat
      /\ String.length r2 = 20%nat
      /\ (r0 ++ r1 ++ r2)%string = fst (stellar_publicAddressAsStr (repeat 5 32)).
Proof.
  split; [reflexivity |]. split; [reflexivity |].
  apply (lineBreakAddress_rows (repeat 5 32)); reflexivity.
Defined.

Lemma base32_char_index (g : Z) :
  0 <= g < 32 ->
  Z.of_nat (string_index (base32_char BASE32_ALPHABET_RFC4648 g)
              BASE32_ALPHABET_RFC4648) = g.
Proof.
  intros Hg.
  assert (H : g = 0 \/ g = 1 \/ g = 2 \/ g = 3 \/ g = 4 \/ g = 5 \/ g = 6 \/ g = 7 \/
              g = 8 \/ g = 9 \/ g = 10 \/ g = 11 \/ g = 12 \/ g = 13 \/ g = 14 \/
              g = 15 \/ g = 16 \/ g = 17 \/ g = 18 \/ g = 19 \/ g = 20 \/ g = 21 \/
              g = 22 \/ g = 23 \/ g = 24 \/ g = 25 \/ g = 26 \/ g = 27 \/ g = 28 \/
              g = 29 \/ g = 30 \/ g = 31) by lia.
  repeat (destruct H as [->|H]; [reflexivity |]). subst g. reflexivity.
Qed.

Lemma base32_char_injective (g1 g2 : Z) :
  0 <= g1 < 32 -> 0 <= g2 < 32 ->
  base32_char BASE32_ALPHABET_RFC4648 g1 = base32_char BASE32_ALPHABET_RFC4648 g2 ->
  g1 = g2.
Proof.
  intros H1 H2 E. rewrite <- (base32_char_index g1 H1), <- (base32_char_index g2 H2), E.
  reflexivity.
Qed.

Lemma group_range (x : Z) : 0 <= Z.land x 31 < 32.
Proof.
  change 31 with (Z.ones 5). rewrite Z.land_ones by lia. apply Z.mod_pos_bound. lia.
Qed.

(** The text of a 35-byte payload determines the number its bytes spell. *)
Lemma base32_encode_35_value (p1 p2 : list Z) :
  List.length p1 = 35%nat -> List.length p2 = 35%nat ->
  C.is_bytes p1 = true -> C.is_bytes p2 = true ->
  base32_encode p1 BASE32_ALPHABET_RFC4648 = base32_encode p2 BASE32_ALPHABET_RFC4648 ->
  be_value p1 = be_value p2.
Proof.
  intros L1 L2 B1 B2 E. unfold base32_encode in E. rewrite L1, L2 in E.
  change (base32_encoded_length 35) with 56%nat in E.
  change (5 * Z.of_nat 56 - 8 * Z.of_nat 35) with 0 in E.
  rewrite !Z.shiftl_0_r in E.
  apply (f_equal list_ascii_of_string) in E.
  rewrite !list_ascii_of_string_of_list_ascii in E.
  assert (D : forall j, 0 <= j < 56 ->
                Z.land (Z.shiftr (be_value p1) (5 * j)) 31
                = Z.land (Z.shiftr (be_value p2) (5 * j)) 31).
  { intros j Hj.
    assert (Hin : In (Z.to_nat (55 - j)) (seq 0 56)) by (apply in_seq; lia).
    pose proof (proj1 map_ext_in_iff E _ Hin) as Ek. cbv beta zeta in Ek.
    replace (Z.of_nat (56 - 1 - Z.to_nat (55 - j))) with j in Ek by lia.
    apply base32_char_injective; [apply group_range | apply group_range | exact Ek]. }
  pose proof (be_value_range p1 B1) as R1. pose proof (be_value_range p2 B2) as R2.
  rewrite L1 in R1. rewrite L2 in R2.
  change (256 ^ Z.of_nat 35) with (2 ^ 280) in *.
  apply Z.bits_inj'. intros i Hi.
  destruct (Z.ltb_spec i 280) as [Hlt|Hge].
  - pose proof (D (i / 5) ltac:(split; [apply Z.div_pos; lia
                                       | apply Z.div_lt_upper_bound; lia])) as Dj.
    apply (f_equal (fun x => Z.testbit x (i mod 5))) in Dj.
    change 31 with (Z.ones 5) in Dj.
    pose proof (Z.mod_pos_bound i 5 ltac:(lia)) as Hr.
    rewrite !Z.land_spec, !Z.shiftr_spec, Z.testbit_ones_nonneg in Dj by lia.
    replace (i mod 5 + 5 * (i / 5)) with i in Dj
      by (rewrite (Z.div_mod i 5) at 1 by lia; ring).
    destruct (Z.ltb_spec (i mod 5) 5); [| lia].
    rewrite !andb_true_r in Dj. exact Dj.
  - assert (Hbig : forall v, 0 <= v < 2 ^ 280 -> Z.testbit v i = false).
    { intros v Hv. destruct (Z.eq_dec v 0) as [->|Hne]; [apply Z.bits_0 |].
      apply Z.bits_above_log2; [lia |].
      apply Z.lt_le_trans with 280; [apply Z.log2_lt_pow2; lia | lia]. }
    rewrite (Hbig _ R1), (Hbig _ R2). reflexivity.
Qed.

Lemma be_value_injective (l1 : list Z) :
  forall l2 : list Z,
    List.length l1 = List.length l2 ->
    C.is_bytes l1 = true -> C.is_bytes l2 = true ->
    be_value l1 = be_value l2 -> l1 = l2.
Proof.
  induction l1 as [|b1 l1 IH]; intros [|b2 l2] L B1 B2 E;
    try discriminate L; [reflexivity |].
  injection L as L.
  unfold C.is_bytes in B1, B2. cbn [forallb] in B1, B2.
  apply andb_prop in B1 as [Hb1 B1]. apply andb_prop in B2 as [Hb2 B2].
  rewrite !be_value_cons, <- L in E.
  pose proof (be_value_range l1 B1) as R1. pose proof (be_value_range l2 B2) as R2.
  rewrite <- L in R2. unfold C.is_uint8 in Hb1, Hb2.
  assert (b1 = b2) by nia. subst b2.
  f_equal. apply IH; try assumption. lia.
Qed.

(** X10: two different 32-byte keys never have the same address. *)
Theorem publicAddress_injective (key1 key2 : list Z) :
  List.length key1 = 32%nat -> List.length key2 = 32%nat ->
  C.is_bytes key1 = true -> C.is_bytes key2 = true ->
  fst (stellar_publicAddressAsStr key1) = fst (stellar_publicAddressAsStr key2) ->
  key1 = key2.
Proof.
  intros L1 L2 B1 B2 E.
  rewrite (publicAddressAsStr_text key1 L1 B1), (publicAddressAsStr_text key2 L2 B2) in E.
  assert (P : strkey_payload key1 = strkey_payload key2).
  { apply be_value_injective.
    - rewrite !strkey_payload_length, L1, L2. reflexivity.
    - apply strkey_payload_bytes, B1.
    - apply strkey_payload_bytes, B2.
    - apply base32_encode_35_value; try (apply strkey_payload_bytes; assumption);
        try (rewrite strkey_payload_length; lia). exact E. }
  unfold strkey_payload in P. cbv zeta in P. injection P as P.
  change (?k ++ [?a; ?b]) with (k ++ [a] ++ [b]) in P.
  rewrite !app_assoc in P.
  apply app_inj_tail in P as [P _]. apply app_inj_tail in P as [P _]. exact P.
Qed.

Lemma publicAddress_injective_witness :
  List.length (repeat 5 32) = 32%nat
  /\ C.is_bytes (repeat 5 32) = true
  /\ fst (stellar_publicAddressAsStr (repeat 5 32))
     = fst (stellar_publicAddressAsStr (repeat 5 32))
  /\ repeat 5 32 = repeat 5 32.
Proof.
  split; [reflexivity |]. split; [reflexivity |]. split; [reflexivity |].
  apply (publicAddress_injective (repeat 5 32) (repeat 5 32)); reflexivity.
Defined.

(** ** More on key derivation and the header step *)

Lemma hardened_component (index : Z) :
  Z.lor 0x80000000 (C.uint32 index) = 2 ^ 31 + index mod 2 ^ 31.
Proof.
  rewrite <- Z.land_ones by lia. rewrite <- Z.or_to_plus.
  - unfold C.uint32. change 0x80000000 with (Z.shiftl 1 31).
    change 0xFFFFFFFF with (Z.ones 32). change (2 ^ 31) with (Z.shiftl 1 31).
    apply Z.bits_inj'. intros i Hi.
    rewrite !Z.lor_spec, !Z.land_spec, !Z.testbit_ones_nonneg by lia.
    rewrite Z.shiftl_spec by lia.
    destruct (Z.ltb_spec i 31), (Z.ltb_spec i 32); try lia.
    + rewrite !andb_true_r. reflexivity.
    + replace i with 31 by lia. reflexivity.
    + rewrite !andb_false_r. reflexivity.
  - change (2 ^ 31) with (Z.shiftl 1 31). apply Z.bits_inj'. intros i Hi.
    rewrite !Z.land_spec, Z.testbit_ones_nonneg, Z.shiftl_spec, Z.bits_0 by lia.
    destruct (Z.ltb_spec i 31).
    + rewrite Z.testbit_neg_r by lia. reflexivity.
    + rewrite !andb_false_r. reflexivity.
Qed.

Section Derivation.

Context {P : Primitives}.

(** X11: the node derived for an account index depends on the index modulo
    2^31 only: the last path component is the index with bit 31 set, so the
    indices [i] and [i + 2^31] name the same key. *)
Theorem deriveNode_index_mod (index : Z) :
  stellar_deriveNode index = stellar_deriveNode (index mod 2 ^ 31)
  /\ stellar_deriveNode (index + 2 ^ 31) = stellar_deriveNode index.
Proof.
  unfold stellar_deriveNode. cbv zeta. rewrite !hardened_component.
  rewrite Z.mod_mod by lia.
  replace ((index + 2 ^ 31) mod 2 ^ 31) with (index mod 2 ^ 31).
  - split; reflexivity.
  - rewrite <- (Z.mul_1_l (2 ^ 31)) at 2. rewrite Z.mod_add by lia. reflexivity.
Qed.

(** X12: when the key of the account derives, the header step completes
    and installs an active session whose accumulator holds, in order: the
    digest of the passphrase, the word 2, the address of the derived key,
    the fee, the sequence number, the time bounds, the memo and the
    operation count; the signer is the derived key, no operation is
    confirmed yet, and the declared count is the one of the message modulo
    2^32. *)
Theorem signingInit_layout (msg : StellarSignTx.t) (w : World) (node : HDNode) :
  stellar_deriveNode (StellarSignTx.index msg) = Some node ->
  exists w',
    stellar_signingInit msg w = Done w'
    /\ stellar_signing w' = true
    /\ ctx w'
       = firstn 32 (sha256_Raw (passphrase msg)) ++ [0; 0; 0; 2]
         ++ address_bytes (derived_pubkey node)
         ++ be32 (StellarSignTx.fee msg)
         ++ be64 (StellarSignTx.sequence_number msg)
         ++ timebounds_bytes msg
         ++ be32 (StellarSignTx.memo_type msg)
         ++ memo_payload msg
         ++ be32 (StellarSignTx.num_operations msg)
    /\ account_id (stellar_activeTx w') = derived_pubkey node
    /\ confirmed w' = 0
    /\ operations w' = StellarSignTx.num_operations msg mod 2 ^ 32.
Proof.
  intros Hd. eexists. split; [apply (signingInit_done msg w node Hd) |].
  unfold ctx, confirmed, operations.
  cbn [stellar_signing stellar_activeTx trace buttons header_tx sha256_ctx
       account_id confirmed_operations num_operations].
  unfold header_bytes, header_before_memo. rewrite <- !app_assoc.
  repeat split; try reflexivity.
  unfold C.uint32. change 0xFFFFFFFF with (Z.ones 32). apply Z.land_ones. lia.
Qed.

End Derivation.

Lemma signingInit_layout_witness :
  let msg := example_header 1 0 in
  let node : HDNode (Primitives := test_primitives) := (repeat 7 32, 1 :: repeat 9 32) in
  stellar_deriveNode (P := test_primitives) (StellarSignTx.index msg) = Some node
  /\ exists w',
      stellar_signingInit (P := test_primitives) msg (idle_world true) = Done w'
      /\ stellar_signing w' = true
      /\ ctx w'
         = firstn 32 (sha256_Raw (Primitives := test_primitives) (passphrase msg))
           ++ [0; 0; 0; 2]
           ++ address_bytes (derived_pubkey (P := test_primitives) node)
           ++ be32 (StellarSignTx.fee msg)
           ++ be64 (StellarSignTx.sequence_number msg)
           ++ timebounds_bytes msg
           ++ be32 (StellarSignTx.memo_type msg)
           ++ memo_payload msg
           ++ be32 (StellarSignTx.num_operations msg)
      /\ account_id (stellar_activeTx w') = derived_pubkey (P := test_primitives) node
      /\ confirmed w' = 0
      /\ operations w' = StellarSignTx.num_operations msg mod 2 ^ 32.
Proof.
  intros msg node. split; [reflexivity |].
  apply (signingInit_layout (P := test_primitives) msg (idle_world true) node).
  reflexivity.
Defined.

(** [strncmp] against a literal is zero exactly when the C string of the
    buffer is the literal. *)
Lemma strncmp_literal (lit : list Z) :
  forall (s : list Z) (n : nat),
    Forall (fun c => c <> 0) lit ->
    (List.length lit < n)%nat ->
    (C.strncmp lit s n = 0 <-> firstn (C.strnlen s n) s = lit).
Proof.
  induction lit as [|a lit IH]; intros s n Hlit Hn.
  - destruct n as [|n]; [cbn in Hn; lia |].
    cbn [C.strncmp hd]. destruct s as [|c s].
    + cbn. tauto.
    + cbn [hd C.strnlen]. destruct (Z.eqb_spec 0 c) as [<-|Hc].
      * cbn. tauto.
      * cbn [negb]. destruct (Z.eqb_spec c 0) as [->|_]; [contradiction |].
        cbn [firstn]. split; [lia | discriminate].
  - destruct n as [|n]; [cbn in Hn; lia |].
    inversion Hlit as [|? ? Ha Hlit']; subst.
    cbn [List.length] in Hn.
    cbn [C.strncmp hd]. destruct s as [|c s].
    + cbn [hd C.strnlen firstn]. destruct (Z.eqb_spec a 0) as [->|_]; [contradiction |].
      cbn [negb]. split; [lia | discriminate].
    + cbn [hd tl C.strnlen]. destruct (Z.eqb_spec a c) as [<-|Hac].
      * cbn [negb]. destruct (Z.eqb_spec a 0) as [->|_]; [contradiction |].
        cbn [firstn]. rewrite (IH s n Hlit') by lia.
        split; [intros ->; reflexivity | intros E; injection E as E; exact E].
      * cbn [negb]. destruct (Z.eqb_spec c 0) as [->|_].
        -- cbn [firstn]. split; [lia | discriminate].
        -- cbn [firstn]. split; [lia | intros E; injection E as E _; congruence].
Qed.

Lemma chars_nonzero_public :
  Forall (fun c => c <> 0) (C.chars "Public Global Stellar Network ; September 2015").
Proof. apply Forall_forall. intros c H. cbn in H. intuition (subst; discriminate). Qed.

Lemma chars_nonzero_test :
  Forall (fun c => c <> 0) (C.chars "Test SDF Network ; September 2015").
Proof. apply Forall_forall. intros c H. cbn in H. intuition (subst; discriminate). Qed.

Lemma classify_exact (c1 c2 : Z) (p public test : list Z) :
  public <> test ->
  (c1 = 0 <-> p = public) ->
  (c2 = 0 <-> p = test) ->
  let kind := if c1 =? 0 then 1 else if c2 =? 0 then 2 else 3 in
  (kind = 1 <-> p = public)
  /\ (kind = 2 <-> p = test)
  /\ (kind = 3 <-> p <> public /\ p <> test).
Proof.
  intros Hne Hp Ht kind. unfold kind.
  destruct (Z.eqb_spec c1 0) as [E1|E1].
  - apply Hp in E1. rewrite E1. intuition (try lia; try congruence).
  - assert (N1 : p <> public) by (intros H; apply E1, Hp, H).
    destruct (Z.eqb_spec c2 0) as [E2|E2].
    + apply Ht in E2. intuition (try lia; try congruence).
    + assert (N2 : p <> test) by (intros H; apply E2, Ht, H).
      intuition (try lia; try congruence).
Qed.

Lemma network_kind_exact (msg : StellarSignTx.t) :
  (network_kind msg = 1
   <-> passphrase msg = C.chars "Public Global Stellar Network ; September 2015")
  /\ (network_kind msg = 2
      <-> passphrase msg = C.chars "Test SDF Network ; September 2015")
  /\ (network_kind msg = 3
      <-> passphrase msg <> C.chars "Public Global Stellar Network ; September 2015"
          /\ passphrase msg <> C.chars "Test SDF Network ; September 2015").
Proof.
  apply classify_exact.
  - vm_compute. discriminate.
  - apply strncmp_literal; [apply chars_nonzero_public |].
    apply Nat.ltb_lt. vm_compute. reflexivity.
  - apply strncmp_literal; [apply chars_nonzero_test |].
    apply Nat.ltb_lt. vm_compute. reflexivity.
Qed.

Section Network.

Context {P : Primitives}.

(** X13: the network type that a completed header step records is 1 exactly
    when the passphrase, read as a C string of at most 1024 characters, is
    the public-network literal, 2 exactly when it is the test-network
    literal, and 3 in every other case. *)
Theorem signingInit_network_type (msg : StellarSignTx.t) (w w' : World) :
  stellar_signingInit msg w = Done w' ->
  (network_type (stellar_activeTx w') = 1
   <-> passphrase msg = C.chars "Public Global Stellar Network ; September 2015")
  /\ (network_type (stellar_activeTx w') = 2
      <-> passphrase msg = C.chars "Test SDF Network ; September 2015")
  /\ (network_type (stellar_activeTx w') = 3
      <-> passphrase msg <> C.chars "Public Global Stellar Network ; September 2015"
          /\ passphrase msg <> C.chars "Test SDF Network ; September 2015").
Proof.
  intros Hinit.
  destruct (stellar_deriveNode (StellarSignTx.index msg)) as [node|] eqn:Hd.
  - rewrite (signingInit_done msg w node Hd) in Hinit. injection Hinit as <-.
    cbn [stellar_activeTx header_tx network_type]. apply network_kind_exact.
  - rewrite (signingInit_undefined msg w Hd) in Hinit. discriminate Hinit.
Qed.

End Network.

Lemma signingInit_network_type_witness :
  let msg := example_header_on "Test SDF Network ; September 2015" 1 0 in
  let w' := match stellar_signingInit (P := test_primitives) msg (idle_world true) with
            | Done w' => w'
            | Undefined => idle_world true
            end in
  stellar_signingInit (P := test_primitives) msg (idle_world true) = Done w'
  /\ (network_type (stellar_activeTx w') = 2
      <-> passphrase msg = C.chars "Test SDF Network ; September 2015").
Proof.
  intros msg w'.
  assert (H : stellar_signingInit (P := test_primitives) msg (idle_world true) = Done w')
    by reflexivity.
  split; [exact H |].
  apply (signingInit_network_type (P := test_primitives) msg (idle_world true) w' H).
Defined.

(** ** Invariants of the operation steps *)

Lemma step_refl (w : World) : step w w.
Proof.
  unfold step. repeat split; try reflexivity.
  - exists []. symmetry. apply app_nil_r.
  - exists []. split; [symmetry; apply app_nil_r | left; split; reflexivity].
Qed.

Lemma step_trans (w1 w2 w3 : World) : step w1 w2 -> step w2 w3 -> step w1 w3.
Proof.
  unfold step.
  intros ([b1 Hb1] & (e1 & He1 & D1) & Ho1 & Ha1 & Hi1 & Hn1)
         ([b2 Hb2] & (e2 & He2 & D2) & Ho2 & Ha2 & Hi2 & Hn2).
  repeat split; try congruence.
  - exists (b1 ++ b2). rewrite Hb2, Hb1. symmetry. apply app_assoc.
  - exists (e1 ++ e2). split; [rewrite He2, He1; symmetry; apply app_assoc |].
    rewrite existsb_app.
    destruct D1 as [[S1 F1]|[S1 F1]], D2 as [[S2 F2]|[S2 F2]]; rewrite F1, F2.
    + left. split; [congruence | reflexivity].
    + right. split; [assumption | reflexivity].
    + right. split; [congruence | reflexivity].
    + right. split; [assumption | reflexivity].
Qed.

Lemma step_absorb (bs : list Z) (w : World) : step w (absorb bs w).
Proof.
  unfold step. repeat split; try reflexivity.
  - exists bs. reflexivity.
  - exists []. split; [symmetry; apply app_nil_r | left; split; reflexivity].
Qed.

Lemma step_dialog (p : Prompt) (w : World) : step w (stellar_layoutTransactionDialog p w).
Proof.
  unfold step. repeat split; try reflexivity.
  - exists []. symmetry. apply app_nil_r.
  - exists [Dialog p]. split; [reflexivity | left; split; reflexivity].
Qed.

Lemma step_protectButton (w : World) : step w (snd (protectButton w)).
Proof.
  unfold step. repeat split; try reflexivity.
  - exists []. symmetry. apply app_nil_r.
  - exists [ButtonRequest (buttons w 0%nat)].
    split; [reflexivity | left; split; reflexivity].
Qed.

Lemma step_abort (w : World) : step w (stellar_signingAbort w).
Proof.
  unfold step. repeat split; try reflexivity.
  - exists []. symmetry. apply app_nil_r.
  - exists [SendFailure FailureType_Failure_ActionCancelled None; LayoutHome].
    split; [world; rewrite <- app_assoc; reflexivity | right; split; reflexivity].
Qed.

Lemma step_count (w : World) :
  step w (with_tx (fun tx => set_confirmed_operations (confirmed_operations tx + 1) tx) w).
Proof.
  unfold step. repeat split; try reflexivity.
  - exists []. symmetry. apply app_nil_r.
  - exists []. split; [symmetry; apply app_nil_r | left; split; reflexivity].
Qed.

Lemma step_confirm (w : World) :
  step w (let (ok, w') := protectButton w in
          if negb ok then stellar_signingAbort w'
          else with_tx (fun tx => set_confirmed_operations (confirmed_operations tx + 1) tx)
                 w').
Proof.
  pose proof (step_protectButton w) as H.
  destruct (protectButton w) as [ok w']. cbn [snd] in H.
  apply (step_trans _ _ _ H). destruct ok; cbn [negb]; [apply step_count | apply step_abort].
Qed.

Lemma step_confirmCreateAccountOp (msg : StellarTxOpAck.t) (w : World) :
  step w (stellar_confirmCreateAccountOp msg w).
Proof.
  unfold stellar_confirmCreateAccountOp. cbv zeta. autorewrite with hashupdate.
  eapply step_trans; [| apply step_confirm].
  eapply step_trans; [| apply step_dialog].
  eapply step_trans; apply step_absorb.
Qed.

Lemma step_if (c : bool) (w w1 : World) :
  step w w1 -> step w (if c then w1 else w).
Proof. destruct c; [auto | intros _; apply step_refl]. Qed.

Lemma step_confirmPaymentOp (msg : StellarTxOpAck.t) (w : World) :
  step w (stellar_confirmPaymentOp msg w).
Proof.
  unfold stellar_confirmPaymentOp. cbv zeta. autorewrite with hashupdate.
  eapply step_trans; [| apply step_confirm].
  eapply step_trans; [| apply step_dialog].
  eapply step_trans; [| apply step_absorb].
  eapply step_trans; [| apply step_if; autorewrite with hashupdate; apply step_absorb].
  eapply step_trans; [| apply step_if; autorewrite with hashupdate; apply step_absorb].
  eapply step_trans; [| apply step_if; autorewrite with hashupdate; apply step_absorb].
  eapply step_trans; [| apply step_if; autorewrite with hashupdate; apply step_absorb].
  apply step_absorb.
Qed.

Lemma step_addOperation_body (msg : StellarTxOpAck.t) (w : World) :
  step w (stellar_addOperation_body msg w).
Proof.
  unfold stellar_addOperation_body. cbv zeta.
  eapply step_trans;
    [| apply step_if; autorewrite with hashupdate; apply step_absorb].
  eapply step_trans; [| apply step_if; apply step_confirmPaymentOp].
  eapply step_trans; [| apply step_if; apply step_confirmCreateAccountOp].
  autorewrite with hashupdate. apply step_absorb.
Qed.

Lemma step_addOperation (msg : StellarTxOpAck.t) (w : World) :
  step w (stellar_addOperation msg w).
Proof.
  unfold stellar_addOperation. cbv zeta.
  destruct (stellar_signing w) eqn:Hs; cbn [negb].
  - destruct (0 <? size (StellarTxOpAck.source_account msg))%nat.
    + set (w1 := stellar_layoutTransactionDialog _ w).
      assert (H1 : step w w1) by apply step_dialog.
      pose proof (step_protectButton w1) as H2.
      destruct (protectButton w1) as [ok w2]. cbn [snd] in H2.
      apply (step_trans _ _ _ H1). apply (step_trans _ _ _ H2).
      destruct ok; cbn [negb]; [| apply step_abort].
      eapply step_trans; [| apply step_addOperation_body].
      autorewrite with hashupdate. apply step_absorb.
    + eapply step_trans; [| apply step_addOperation_body].
      autorewrite with hashupdate. apply step_absorb.
  - unfold step. repeat split; try reflexivity.
    + exists []. symmetry. apply app_nil_r.
    + eexists. split; [world; rewrite <- app_assoc; reflexivity |].
      right. split; [exact Hs | reflexivity].
Qed.

Lemma step_run_operations (ops : list StellarTxOpAck.t) :
  forall w : World, step w (run_operations ops w).
Proof.
  induction ops as [|msg ops IH]; intros w; [apply step_refl |].
  apply (step_trans _ _ _ (step_addOperation msg w)), IH.
Qed.

Lemma new_events_app (w w' : World) (ev : list Event) :
  trace w' = trace w ++ ev -> new_events w w' = ev.
Proof.
  intros H. unfold new_events. rewrite H, skipn_app, skipn_all, Nat.sub_diag.
  reflexivity.
Qed.

(** ** Operations that the user approves or refuses *)

Lemma confirmCreateAccountOp_eq (msg : StellarTxOpAck.t) (w : World) :
  stellar_confirmCreateAccountOp msg w
  = confirm
      (stellar_layoutTransactionDialog
         (CreateAccount
            (stellar_lineBreakAddress (bytes (StellarTxOpAck.destination_account msg)))
            (StellarTxOpAck.amount msg))
         (absorb (address_bytes (bytes (StellarTxOpAck.destination_account msg))
                  ++ be64 (StellarTxOpAck.amount msg)) w)).
Proof.
  unfold stellar_confirmCreateAccountOp, confirm. cbv zeta.
  autorewrite with hashupdate. rewrite absorb_absorb. reflexivity.
Qed.

Lemma confirmPaymentOp_eq (msg : StellarTxOpAck.t) (w : World) :
  stellar_confirmPaymentOp msg w
  = confirm
      (stellar_layoutTransactionDialog
         (Payment
            (stellar_lineBreakAddress (bytes (StellarTxOpAck.destination_account msg)))
            (StellarTxOpAck.asset msg) (StellarTxOpAck.amount msg))
         (absorb (code_payment_bytes msg) w)).
Proof.
  unfold stellar_confirmPaymentOp, confirm, code_payment_bytes, code_asset_bytes.
  cbv zeta. autorewrite with hashupdate.
  destruct (StellarAssetType.type (StellarTxOpAck.asset msg) =? 0),
    (StellarAssetType.type (StellarTxOpAck.asset msg) =? 1),
    (StellarAssetType.type (StellarTxOpAck.asset msg) =? 2);
    cbn [orb]; autorewrite with hashupdate; rewrite ?absorb_absorb;
    repeat first [rewrite <- app_assoc | progress cbn [app]]; reflexivity.
Qed.

Lemma addOperation_body_eq (msg : StellarTxOpAck.t) (w : World) :
  StellarTxOpAck.type msg = 0 \/ StellarTxOpAck.type msg = 1 ->
  stellar_addOperation_body msg w
  = let w1 := confirm (stellar_layoutTransactionDialog (operation_prompt msg)
                         (absorb (be32 (StellarTxOpAck.type msg) ++ operation_fields msg)
                            w)) in
    if stellar_allOperationsConfirmed w1 then absorb (be32 0) w1 else w1.
Proof.
  intros Ht. unfold stellar_addOperation_body, operation_prompt, operation_fields.
  cbv zeta. rewrite confirmCreateAccountOp_eq, confirmPaymentOp_eq.
  autorewrite with hashupdate.
  destruct Ht as [Ht|Ht]; rewrite Ht; cbn [Z.eqb Pos.eqb];
    rewrite absorb_absorb; reflexivity.
Qed.

Lemma uint32_small (v : Z) : 0 <= v < 2 ^ 32 -> C.uint32 v = v.
Proof.
  intros H. unfold C.uint32. change 0xFFFFFFFF with (Z.ones 32).
  rewrite Z.land_ones by lia. apply Z.mod_small. exact H.
Qed.

Lemma confirm_accepted (w : World) :
  buttons w 0%nat = true ->
  stellar_signing (confirm w) = stellar_signing w
  /\ ctx (confirm w) = ctx w
  /\ confirmed (confirm w) = C.uint32 (confirmed w + 1)
  /\ operations (confirm w) = operations w
  /\ trace (confirm w) = trace w ++ [ButtonRequest true]
  /\ buttons (confirm w) = (fun n => buttons w (S n)).
Proof.
  intros H. unfold confirm, protectButton. rewrite H. cbn [negb].
  repeat split; reflexivity.
Qed.

Lemma confirm_refused (w : World) :
  buttons w 0%nat = false ->
  stellar_signing (confirm w) = false
  /\ ctx (confirm w) = ctx w
  /\ confirmed (confirm w) = confirmed w
  /\ operations (confirm w) = operations w
  /\ trace (confirm w)
     = trace w ++ [ButtonRequest false;
                   SendFailure FailureType_Failure_ActionCancelled None; LayoutHome].
Proof.
  intros H. unfold confirm, protectButton. rewrite H. cbn [negb]. world.
  rewrite <- !app_assoc. repeat split; reflexivity.
Qed.

Lemma addOperation_eq (msg : StellarTxOpAck.t) (w : World) :
  stellar_signing w = true ->
  stellar_addOperation msg w
  = if (0 <? size (StellarTxOpAck.source_account msg))%nat
    then
      let (ok, w1) :=
        protectButton (stellar_layoutTransactionDialog (source_prompt msg) w) in
      if negb ok then stellar_signingAbort w1
      else stellar_addOperation_body msg
             (absorb (address_bytes (bytes (StellarTxOpAck.source_account msg))) w1)
    else stellar_addOperation_body msg (absorb (be32 0) w).
Proof.
  intros Hs. unfold stellar_addOperation, source_prompt. rewrite Hs.
  cbn [negb]. cbv zeta.
  destruct (0 <? size (StellarTxOpAck.source_account msg))%nat.
  - destruct (protectButton _) as [ok w1].
    destruct ok; cbn [negb]; autorewrite with hashupdate; reflexivity.
  - autorewrite with hashupdate. reflexivity.
Qed.

(** With a user who approves the source account, if there is one, the
    operation goes on from a world that has absorbed the source field. *)
Lemma addOperation_source_accepted (msg : StellarTxOpAck.t) (w : World) :
  stellar_signing w = true ->
  buttons w 0%nat = true ->
  exists w0 ev,
    stellar_addOperation msg w = stellar_addOperation_body msg w0
    /\ ctx w0 = ctx w ++ source_field msg
    /\ trace w0 = trace w ++ ev
    /\ existsb is_failure ev = false
    /\ confirmed w0 = confirmed w
    /\ operations w0 = operations w
    /\ stellar_signing w0 = true
    /\ (exists k, forall n, buttons w0 n = buttons w (k + n)%nat).
Proof.
  intros Hs Hb. rewrite (addOperation_eq msg w Hs). unfold source_field.
  destruct (0 <? size (StellarTxOpAck.source_account msg))%nat.
  - unfold protectButton. cbn [buttons stellar_layoutTransactionDialog emit].
    rewrite Hb. cbn [negb].
    eexists. exists [Dialog (source_prompt msg); ButtonRequest true].
    split; [reflexivity |]. world. rewrite <- app_assoc.
    repeat split; try reflexivity; try assumption.
    exists 1%nat. reflexivity.
  - exists (absorb (be32 0) w), []. split; [reflexivity |]. world.
    rewrite app_nil_r. repeat split; try reflexivity; try assumption.
    exists 0%nat. reflexivity.
Qed.

Lemma addOperation_accepted_step (msg : StellarTxOpAck.t) (w : World) :
  stellar_signing w = true ->
  accepting w ->
  StellarTxOpAck.type msg = 0 \/ StellarTxOpAck.type msg = 1 ->
  0 <= confirmed w < 2 ^ 32 - 1 ->
  let w' := stellar_addOperation msg w in
  ctx w' = ctx w ++ operation_bytes msg
             ++ (if confirmed w + 1 =? operations w then be32 0 else [])
  /\ confirmed w' = confirmed w + 1
  /\ operations w' = operations w
  /\ stellar_signing w' = true
  /\ accepting w'
  /\ existsb is_failure (new_events w w') = false.
Proof.
  intros Hs Hacc Ht Hc w'. unfold w'.
  destruct (addOperation_source_accepted msg w Hs (Hacc 0%nat))
    as (w0 & ev & -> & Hctx0 & Htr0 & Hev0 & Hc0 & Ho0 & Hs0 & k & Hb0).
  rewrite (addOperation_body_eq msg _ Ht). cbv zeta.
  set (w1 := stellar_layoutTransactionDialog (operation_prompt msg) _).
  assert (Hb : buttons w1 0%nat = true)
    by (unfold w1; world; rewrite Hb0; apply Hacc).
  destruct (confirm_accepted w1 Hb) as (S1 & C1 & N1 & O1 & T1 & B1).
  assert (Hn : confirmed (confirm w1) = confirmed w + 1)
    by (rewrite N1; change (confirmed w1) with (confirmed w0); rewrite Hc0;
        apply uint32_small; lia).
  assert (Ho : operations (confirm w1) = operations w)
    by (rewrite O1; change (operations w1) with (operations w0); exact Ho0).
  assert (Hs1 : stellar_signing (confirm w1) = true)
    by (rewrite S1; exact Hs0).
  assert (Htr : trace (confirm w1)
                = trace w ++ ev ++ [Dialog (operation_prompt msg); ButtonRequest true]).
  { rewrite T1. unfold w1. world. rewrite Htr0, <- !app_assoc. reflexivity. }
  assert (Hctx : ctx (confirm w1) = ctx w ++ operation_bytes msg).
  { rewrite C1. unfold w1, operation_bytes. world. rewrite Hctx0, <- !app_assoc.
    reflexivity. }
  assert (Hacc' : accepting (confirm w1)).
  { intros n. rewrite B1. unfold w1. world. rewrite Hb0. apply Hacc. }
  assert (Hnf : forall w2, trace w2 = trace (confirm w1) ->
                  existsb is_failure (new_events w w2) = false).
  { intros w2 H2. rewrite (new_events_app w w2 _ (eq_trans H2 Htr)).
    rewrite existsb_app, Hev0. reflexivity. }
  unfold stellar_allOperationsConfirmed. fold (confirmed (confirm w1)).
  fold (operations (confirm w1)). rewrite Hn, Ho.
  destruct (confirmed w + 1 =? operations w).
  - change (ctx (absorb (be32 0) (confirm w1))) with (ctx (confirm w1) ++ be32 0).
    rewrite Hctx, <- app_assoc.
    repeat split; try assumption; try reflexivity. apply Hnf. reflexivity.
  - rewrite app_nil_r. repeat split; try assumption. apply Hnf. reflexivity.
Qed.

(** X14: an operation of type 0 or 1 in an active session, with a user who
    approves every request, appends the source account field, the type and
    the fields of the operation, and four zero bytes when it is the last
    declared operation; it adds one to the confirmed count, keeps the
    session active and sends no failure. *)
Theorem addOperation_accepted (msg : StellarTxOpAck.t) (w : World) :
  stellar_signing w = true ->
  accepting w ->
  StellarTxOpAck.type msg = 0 \/ StellarTxOpAck.type msg = 1 ->
  0 <= confirmed w < 2 ^ 32 - 1 ->
  let w' := stellar_addOperation msg w in
  ctx w' = ctx w ++ operation_bytes msg
             ++ (if confirmed w + 1 =? operations w then be32 0 else [])
  /\ confirmed w' = confirmed w + 1
  /\ operations w' = operations w
  /\ stellar_signing w' = true
  /\ accepting w'
  /\ existsb is_failure (new_events w w') = false.
Proof. exact (addOperation_accepted_step msg w). Qed.

Lemma accepting_idle (w : World) : buttons w = (fun _ => true) -> accepting w.
Proof. intros H n. rewrite H. reflexivity. Qed.

Lemma addOperation_accepted_witness :
  let msg := example_create_account in
  let w := started_world 1 true in
  let w' := stellar_addOperation msg w in
  stellar_signing w = true
  /\ accepting w
  /\ (StellarTxOpAck.type msg = 0 \/ StellarTxOpAck.type msg = 1)
  /\ 0 <= confirmed w < 2 ^ 32 - 1
  /\ ctx w' = ctx w ++ operation_bytes msg
                ++ (if confirmed w + 1 =? operations w then be32 0 else [])
  /\ confirmed w' = confirmed w + 1
  /\ operations w' = operations w
  /\ stellar_signing w' = true
  /\ accepting w'
  /\ existsb is_failure (new_events w w') = false.
Proof.
  intros msg w w'.
  assert (H1 : stellar_signing w = true) by reflexivity.
  assert (H2 : accepting w) by (apply accepting_idle; reflexivity).
  assert (H3 : StellarTxOpAck.type msg = 0 \/ StellarTxOpAck.type msg = 1)
    by (left; reflexivity).
  assert (H4 : 0 <= confirmed w < 2 ^ 32 - 1) by (vm_compute; split; congruence).
  repeat (split; [assumption |]).
  apply (addOperation_accepted msg w H1 H2 H3 H4).
Defined.

(** X15: an operation of type 0 or 1 without a source account, in an active
    session, that the user refuses: its bytes are in the accumulator all the
    same, because they are hashed before the question is asked; the session
    is closed with [Failure_ActionCancelled] and the operation is not
    counted. *)
Theorem addOperation_refused (msg : StellarTxOpAck.t) (w : World) :
  stellar_signing w = true ->
  size (StellarTxOpAck.source_account msg) = 0%nat ->
  StellarTxOpAck.type msg = 0 \/ StellarTxOpAck.type msg = 1 ->
  buttons w 0%nat = false ->
  let w' := stellar_addOperation msg w in
  stellar_signing w' = false
  /\ confirmed w' = confirmed w
  /\ new_events w w'
     = [Dialog (operation_prompt msg); ButtonRequest false;
        SendFailure FailureType_Failure_ActionCancelled None; LayoutHome]
  /\ ctx w' = ctx w ++ be32 0 ++ be32 (StellarTxOpAck.type msg)
                ++ operation_fields msg ++ trailer w.
Proof.
  intros Hs Hsize Ht Hb w'. unfold w'. rewrite (addOperation_eq msg w Hs), Hsize.
  cbn [Nat.ltb Nat.leb]. rewrite (addOperation_body_eq msg _ Ht). cbv zeta.
  set (w1 := stellar_layoutTransactionDialog (operation_prompt msg) _).
  assert (Hb1 : buttons w1 0%nat = false) by exact Hb.
  destruct (confirm_refused w1 Hb1) as (S1 & C1 & N1 & O1 & T1).
  assert (Htr : trace (confirm w1)
                = trace w ++ [Dialog (operation_prompt msg); ButtonRequest false;
                              SendFailure FailureType_Failure_ActionCancelled None;
                              LayoutHome]).
  { rewrite T1. unfold w1. world. rewrite <- app_assoc. reflexivity. }
  assert (Hctx : ctx (confirm w1)
                 = ctx w ++ be32 0 ++ be32 (StellarTxOpAck.type msg)
                     ++ operation_fields msg).
  { rewrite C1. unfold w1. world. rewrite <- ?app_assoc. reflexivity. }
  unfold stellar_allOperationsConfirmed, trailer. fold (confirmed (confirm w1)).
  fold (operations (confirm w1)). rewrite N1, O1.
  change (confirmed w1) with (confirmed w). change (operations w1) with (operations w).
  destruct (confirmed w =? operations w).
  - change (ctx (absorb (be32 0) (confirm w1))) with (ctx (confirm w1) ++ be32 0).
    rewrite Hctx, <- ?app_assoc.
    repeat split; try assumption; try reflexivity.
    apply (new_events_app w _ _ Htr).
  - rewrite Hctx, app_nil_r. repeat split; try assumption.
    apply (new_events_app w _ _ Htr).
Qed.

Lemma addOperation_refused_witness :
  let msg := example_payment in
  let w := started_world 1 false in
  let w' := stellar_addOperation msg w in
  stellar_signing w = true
  /\ size (StellarTxOpAck.source_account msg) = 0%nat
  /\ (StellarTxOpAck.type msg = 0 \/ StellarTxOpAck.type msg = 1)
  /\ buttons w 0%nat = false
  /\ stellar_signing w' = false
  /\ confirmed w' = confirmed w
  /\ new_events w w'
     = [Dialog (operation_prompt msg); ButtonRequest false;
        SendFailure FailureType_Failure_ActionCancelled None; LayoutHome]
  /\ ctx w' = ctx w ++ be32 0 ++ be32 (StellarTxOpAck.type msg)
                ++ operation_fields msg ++ trailer w.
Proof.
  intros msg w w'.
  assert (H1 : stellar_signing w = true) by reflexivity.
  assert (H2 : size (StellarTxOpAck.source_account msg) = 0%nat) by reflexivity.
  assert (H3 : StellarTxOpAck.type msg = 0 \/ StellarTxOpAck.type msg = 1)
    by (right; reflexivity).
  assert (H4 : buttons w 0%nat = false) by reflexivity.
  repeat (split; [assumption |]).
  apply (addOperation_refused msg w H1 H2 H3 H4).
Defined.

Lemma run_operations_accepted (ops : list StellarTxOpAck.t) :
  forall w : World,
    stellar_signing w = true ->
    accepting w ->
    Forall (fun msg => StellarTxOpAck.type msg = 0 \/ StellarTxOpAck.type msg = 1) ops ->
    ops <> [] ->
    0 <= confirmed w ->
    confirmed w + Z.of_nat (List.length ops) <= operations w ->
    operations w < 2 ^ 32 ->
    ctx (run_operations ops w)
    = ctx w ++ List.concat (map operation_bytes ops)
        ++ (if confirmed w + Z.of_nat (List.length ops) =? operations w
            then be32 0 else [])
    /\ confirmed (run_operations ops w) = confirmed w + Z.of_nat (List.length ops)
    /\ operations (run_operations ops w) = operations w
    /\ stellar_signing (run_operations ops w) = true.
Proof.
  induction ops as [|msg ops IH]; intros w Hs Hacc Hty Hne Hc Hle Ho;
    [contradiction |].
  inversion Hty as [|? ? Hmsg Hops]; subst.
  cbn [List.length] in Hle. rewrite Nat2Z.inj_succ in Hle.
  destruct (addOperation_accepted_step msg w Hs Hacc Hmsg ltac:(lia))
    as (Hctx & Hn & Hop & Hs' & Hacc' & _).
  change (run_operations (msg :: ops) w)
    with (run_operations ops (stellar_addOperation msg w)).
  destruct ops as [|msg2 ops].
  - cbn [run_operations fold_left map List.concat List.length Z.of_nat].
    rewrite app_nil_r. repeat split; assumption.
  - destruct (IH (stellar_addOperation msg w)) as (Hctx2 & Hn2 & Hop2 & Hs2);
      try assumption; try discriminate; try lia.
    rewrite Hctx2, Hn2, Hop2, Hctx, Hn, Hop.
    replace (confirmed w + 1 =? operations w) with false
      by (symmetry; apply Z.eqb_neq; cbn [List.length] in Hle; lia).
    replace (confirmed w + 1 + Z.of_nat (List.length (msg2 :: ops)))
      with (confirmed w + Z.of_nat (List.length (msg :: msg2 :: ops)))
      by (cbn [List.length]; lia).
    cbn [map List.concat]. rewrite app_nil_r, <- !app_assoc.
    repeat split; try assumption; try reflexivity.
Qed.

Section Transaction.

Context {P : Primitives}.

(** X16: a whole transaction.  After a header that declares [n >= 1]
    operations, [n] operations of type 0 or 1, all approved, leave in the
    accumulator the header, the operations in the order received and one
    closing zero word; then every operation is confirmed and the session is
    still active. *)
Theorem transaction_bytes
    (msg : StellarSignTx.t) (w0 w1 : World) (ops : list StellarTxOpAck.t) :
  stellar_signingInit msg w0 = Done w1 ->
  accepting w0 ->
  Forall (fun op => StellarTxOpAck.type op = 0 \/ StellarTxOpAck.type op = 1) ops ->
  ops <> [] ->
  Z.of_nat (List.length ops) = StellarSignTx.num_operations msg mod 2 ^ 32 ->
  ctx (run_operations ops w1)
  = ctx w1 ++ List.concat (map operation_bytes ops) ++ [0; 0; 0; 0]
  /\ stellar_allOperationsConfirmed (run_operations ops w1) = true
  /\ stellar_signing (run_operations ops w1) = true.
Proof.
  intros Hinit Hacc Hty Hne Hlen.
  destruct (stellar_deriveNode (StellarSignTx.index msg)) as [node|] eqn:Hd.
  2:{ rewrite (signingInit_undefined msg w0 Hd) in Hinit. discriminate Hinit. }
  rewrite (signingInit_done msg w0 node Hd) in Hinit. injection Hinit as <-.
  set (w1 := {| stellar_signing := true |}).
  assert (Hc : confirmed w1 = 0) by reflexivity.
  assert (Ho : operations w1 = StellarSignTx.num_operations msg mod 2 ^ 32).
  { unfold operations, w1. cbn [stellar_activeTx header_tx num_operations].
    unfold C.uint32. change 0xFFFFFFFF with (Z.ones 32). apply Z.land_ones. lia. }
  pose proof (Z.mod_pos_bound (StellarSignTx.num_operations msg) (2 ^ 32) ltac:(lia)).
  destruct (run_operations_accepted ops w1) as (Hctx & Hn & Hop & Hs);
    try assumption; try reflexivity; try lia.
  rewrite Hc, Ho, <- Hlen, Z.eqb_refl in Hctx.
  split; [exact Hctx |]. split; [| exact Hs].
  unfold stellar_allOperationsConfirmed. fold (confirmed (run_operations ops w1)).
  fold (operations (run_operations ops w1)). rewrite Hn, Hop, Hc, Ho. apply Z.eqb_eq. lia.
Qed.

End Transaction.

Lemma transaction_bytes_witness :
  let msg := example_header 2 0 in
  let ops := [example_create_account; example_payment] in
  stellar_signingInit (P := test_primitives) msg (idle_world true)
  = Done (started_world 2 true)
  /\ accepting (idle_world true)
  /\ Forall (fun op => StellarTxOpAck.type op = 0 \/ StellarTxOpAck.type op = 1) ops
  /\ ops <> []
  /\ Z.of_nat (List.length ops) = StellarSignTx.num_operations msg mod 2 ^ 32
  /\ ctx (run_operations ops (started_world 2 true))
     = ctx (started_world 2 true) ++ List.concat (map operation_bytes ops) ++ [0; 0; 0; 0]
  /\ stellar_allOperationsConfirmed (run_operations ops (started_world 2 true)) = true
  /\ stellar_signing (run_operations ops (started_world 2 true)) = true.
Proof.
  intros msg ops.
  assert (H1 : stellar_signingInit (P := test_primitives) msg (idle_world true)
               = Done (started_world 2 true)) by reflexivity.
  assert (H2 : accepting (idle_world true)) by (intros n; reflexivity).
  assert (H3 : Forall (fun op => StellarTxOpAck.type op = 0
                                 \/ StellarTxOpAck.type op = 1) ops).
  { apply Forall_cons; [left; reflexivity |].
    apply Forall_cons; [right; reflexivity | apply Forall_nil]. }
  assert (H4 : ops <> []) by discriminate.
  assert (H5 : Z.of_nat (List.length ops) = StellarSignTx.num_operations msg mod 2 ^ 32)
    by reflexivity.
  repeat (split; [assumption |]).
  apply (transaction_bytes (P := test_primitives) msg (idle_world true)
           (started_world 2 true) ops H1 H2 H3 H4 H5).
Defined.

(** ** Invariants of a run of operations *)

(** X17: whatever operations are processed, in whatever state, the
    accumulator and the trace only grow, and the declared operation count,
    the signer's key, the account index and the network type stay as they
    were. *)
Theorem operations_only_extend (ops : list StellarTxOpAck.t) (w : World) :
  (exists bs, ctx (run_operations ops w) = ctx w ++ bs)
  /\ (exists ev, trace (run_operations ops w) = trace w ++ ev)
  /\ operations (run_operations ops w) = operations w
  /\ account_id (stellar_activeTx (run_operations ops w))
     = account_id (stellar_activeTx w)
  /\ account_index (stellar_activeTx (run_operations ops w))
     = account_index (stellar_activeTx w)
  /\ network_type (stellar_activeTx (run_operations ops w))
     = network_type (stellar_activeTx w).
Proof.
  destruct (step_run_operations ops w) as (Hb & (ev & He & _) & Ho & Ha & Hi & Hn).
  repeat split; try assumption. exists ev. exact He.
Qed.

(** X18: a call of [stellar_addOperation] sends a failure exactly when it
    leaves the session inactive; over a run of operations, a failure sent
    at any point means the session is inactive at the end, and a session
    that is active at the end was active at the start and saw no
    failure. *)
Theorem failure_closes_session (ops : list StellarTxOpAck.t) (w : World) :
  (forall msg,
      existsb is_failure (new_events w (stellar_addOperation msg w))
      = negb (stellar_signing (stellar_addOperation msg w)))
  /\ (existsb is_failure (new_events w (run_operations ops w)) = true ->
      stellar_signing (run_operations ops w) = false)
  /\ (stellar_signing (run_operations ops w) = true ->
      stellar_signing w = true
      /\ existsb is_failure (new_events w (run_operations ops w)) = false).
Proof.
  split; [| split].
  - intros msg. destruct (stellar_signing w) eqn:Hs.
    + destruct (step_addOperation msg w) as (_ & (ev & He & D) & _).
      rewrite (new_events_app w _ ev He).
      destruct D as [[S F]|[S F]]; rewrite S, F, ?Hs; reflexivity.
    + destruct (addOperation_not_signing msg w Hs) as [Hse Htr].
      rewrite (new_events_app w _ _ Htr).
      unfold session in Hse. injection Hse as -> _. rewrite Hs. reflexivity.
  - destruct (step_run_operations ops w) as (_ & (ev & He & D) & _).
    rewrite (new_events_app w _ ev He).
    destruct D as [[S F]|[S F]]; [rewrite F; discriminate | intros _; exact S].
  - destruct (step_run_operations ops w) as (_ & (ev & He & D) & _).
    rewrite (new_events_app w _ ev He).
    destruct D as [[S F]|[S F]]; intros H; [split; congruence | congruence].
Qed.

Lemma run_operations_not_signing (ops : list StellarTxOpAck.t) :
  forall w : World,
    stellar_signing w = false ->
    session (run_operations ops w) = session w
    /\ trace (run_operations ops w)
       = trace w ++ List.concat (map (fun _ => unexpected_message) ops).
Proof.
  induction ops as [|msg ops IH]; intros w Hs.
  - cbn [run_operations fold_left map List.concat]. rewrite app_nil_r. split; reflexivity.
  - change (run_operations (msg :: ops) w)
      with (run_operations ops (stellar_addOperation msg w)).
    destruct (addOperation_not_signing msg w Hs) as [Hse Htr].
    assert (Hs' : stellar_signing (stellar_addOperation msg w) = false).
    { unfold session in Hse. injection Hse as -> _. exact Hs. }
    destruct (IH _ Hs') as [IHse IHtr].
    rewrite IHse, IHtr, Hse, Htr. cbn [map List.concat].
    rewrite <- app_assoc. split; reflexivity.
Qed.

(** X19: after an abort every operation is refused: whatever operations
    follow, the session stays as the abort left it (nothing more is hashed
    or counted), and each of them is answered with
    [Failure_UnexpectedMessage]. *)
Theorem aborted_session_ignores_operations (ops : list StellarTxOpAck.t) (w : World) :
  session (run_operations ops (stellar_signingAbort w)) = session (stellar_signingAbort w)
  /\ ctx (run_operations ops (stellar_signingAbort w)) = ctx w
  /\ new_events (stellar_signingAbort w) (run_operations ops (stellar_signingAbort w))
     = List.concat (map (fun _ => unexpected_message) ops).
Proof.
  destruct (run_operations_not_signing ops (stellar_signingAbort w)) as [Hse Htr];
    [reflexivity |].
  split; [exact Hse |]. split.
  - unfold session in Hse. injection Hse as _ Htx. unfold ctx. rewrite Htx. reflexivity.
  - apply new_events_app, Htr.
Qed.

Section AfterAbort.

Context {P : Primitives}.

(** X20: finalization does not look at the session flag or at the counters:
    when the key of the account derives, a call made after an abort returns
    the signature that a call made in place of the abort returns, the one
    over the bytes accumulated so far; and it does not reopen the session,
    which is inactive after it. *)
Theorem signature_after_abort (w : World) (node : HDNode) :
  stellar_deriveNode (account_index (stellar_activeTx w)) = Some node ->
  exists signature w1 w2,
    stellar_getSignatureForActiveTx w = Done (signature, w1)
    /\ stellar_getSignatureForActiveTx (stellar_signingAbort w) = Done (signature, w2)
    /\ signature
       = firstn 64 (ed25519_sign (firstn 32 (sha256_Raw (ctx w)))
                      (private_key node) (tl (public_key node)))
    /\ stellar_signing w2 = false.
Proof.
  intros Hd. eexists. exists (finalized w), (finalized (stellar_signingAbort w)).
  split; [apply (getSignature_done w node Hd) |].
  split; [apply (getSignature_done (stellar_signingAbort w) node Hd) |].
  split; reflexivity.
Qed.

(** X21: a header that declares no operation leaves a session in which all
    operations already count as confirmed, and an accumulator that holds
    the header up to the memo followed by the operation count, four zero
    bytes, and nothing after it: no closing zero word has been hashed, since
    only [stellar_addOperation] hashes one. *)
Theorem signingInit_no_operations (msg : StellarSignTx.t) (w w' : World) :
  stellar_signingInit msg w = Done w' ->
  StellarSignTx.num_operations msg mod 2 ^ 32 = 0 ->
  stellar_allOperationsConfirmed w' = true
  /\ exists node,
      stellar_deriveNode (StellarSignTx.index msg) = Some node
      /\ ctx w'
         = header_before_memo (sha256_Raw (passphrase msg)) (derived_pubkey node) msg
           ++ be32 (StellarSignTx.memo_type msg)
           ++ memo_payload msg
           ++ [0; 0; 0; 0].
Proof.
  intros Hinit Hz.
  destruct (stellar_deriveNode (StellarSignTx.index msg)) as [node|] eqn:Hd.
  2:{ rewrite (signingInit_undefined msg w Hd) in Hinit. discriminate Hinit. }
  rewrite (signingInit_done msg w node Hd) in Hinit. injection Hinit as <-.
  unfold stellar_allOperationsConfirmed, ctx.
  cbn [stellar_activeTx header_tx confirmed_operations num_operations sha256_ctx].
  split.
  - unfold C.uint32. change 0xFFFFFFFF with (Z.ones 32).
    rewrite Z.land_ones, Hz by lia. reflexivity.
  - exists node. split; [reflexivity |]. unfold header_bytes.
    assert (E : be32 (StellarSignTx.num_operations msg)
                = be32 (StellarSignTx.num_operations msg mod 2 ^ 32)).
    { apply be_value_injective; try reflexivity; try apply be32_bytes.
      rewrite !be_value_be32, Z.mod_mod by lia. reflexivity. }
    rewrite E, Hz. reflexivity.
Qed.

End AfterAbort.

Lemma signature_after_abort_witness :
  let w := started_world 1 true in
  let node : HDNode (Primitives := test_primitives) := (repeat 7 32, 1 :: repeat 9 32) in
  stellar_deriveNode (P := test_primitives) (account_index (stellar_activeTx w))
  = Some node
  /\ exists signature w1 w2,
      stellar_getSignatureForActiveTx (P := test_primitives) w = Done (signature, w1)
      /\ stellar_getSignatureForActiveTx (P := test_primitives) (stellar_signingAbort w)
         = Done (signature, w2)
      /\ signature
         = firstn 64 (ed25519_sign (Primitives := test_primitives)
                        (firstn 32 (sha256_Raw (Primitives := test_primitives) (ctx w)))
                        (private_key node) (tl (public_key node)))
      /\ stellar_signing w2 = false.
Proof.
  intros w node. split; [reflexivity |].
  apply (signature_after_abort (P := test_primitives) w node). reflexivity.
Defined.

Lemma signingInit_no_operations_witness :
  stellar_signingInit (P := test_primitives) (example_header 0 0) (idle_world true)
  = Done (started_world 0 true)
  /\ StellarSignTx.num_operations (example_header 0 0) mod 2 ^ 32 = 0
  /\ stellar_allOperationsConfirmed (started_world 0 true) = true
  /\ exists node,
      stellar_deriveNode (P := test_primitives)
        (StellarSignTx.index (example_header 0 0)) = Some node
      /\ ctx (started_world 0 true)
         = header_before_memo
             (sha256_Raw (Primitives := test_primitives)
                (passphrase (example_header 0 0)))
             (derived_pubkey (P := test_primitives) node) (example_header 0 0)
           ++ be32 (StellarSignTx.memo_type (example_header 0 0))
           ++ memo_payload (example_header 0 0)
           ++ [0; 0; 0; 0].
Proof.
  assert (H1 : stellar_signingInit (P := test_primitives) (example_header 0 0)
                 (idle_world true) = Done (started_world 0 true)) by reflexivity.
  assert (H2 : StellarSignTx.num_operations (example_header 0 0) mod 2 ^ 32 = 0)
    by reflexivity.
  split; [exact H1 |]. split; [exact H2 |].
  apply (signingInit_no_operations (P := test_primitives) (example_header 0 0)
           (idle_world true) (started_world 0 true) H1 H2).
Defined.

(** ** Payments in the native asset and in an unknown asset *)

(** X22: whatever the user answers, a payment has its bytes hashed before
    the question: for the native asset they are the destination address, a
    zero word and the amount; for an asset type other than 0, 1 and 2 no
    asset bytes at all are hashed, only the destination and the amount. *)
Theorem confirmPaymentOp_native_or_unknown (msg : StellarTxOpAck.t) (w : World) :
  let asset_type := StellarAssetType.type (StellarTxOpAck.asset msg) in
  let destination := address_bytes (bytes (StellarTxOpAck.destination_account msg)) in
  (asset_type = 0 ->
   ctx (stellar_confirmPaymentOp msg w)
   = ctx w ++ destination ++ [0; 0; 0; 0] ++ be64 (StellarTxOpAck.amount msg))
  /\ (asset_type <> 0 -> asset_type <> 1 -> asset_type <> 2 ->
      ctx (stellar_confirmPaymentOp msg w)
      = ctx w ++ destination ++ be64 (StellarTxOpAck.amount msg)).
Proof.
  intros asset_type destination. rewrite confirmPaymentOp_ctx.
  unfold code_payment_bytes, code_asset_bytes. fold asset_type. fold destination.
  split.
  - intros ->. reflexivity.
  - intros H0 H1 H2.
    destruct (Z.eqb_spec asset_type 0); [contradiction |].
    destruct (Z.eqb_spec asset_type 1); [contradiction |].
    destruct (Z.eqb_spec asset_type 2); [contradiction |]. reflexivity.
Qed.
